(** * OnionController-ESP32: a shallow embedding of the firmware core

    Sources embedded here:
    - [main/onion_config.h]   : hardware constants and [onion_key_t];
    - [main/onion_touch.c]    : multiplexer, sampling, edge detection,
                                NVS load and save of the lookup table;
    - [main/onion_ble.c]      : HID report dispatch, the serial command task;
    - [main/OnionController.c]: the scan loop of [app_main].

    C globals become fields of one record [world]; every C function is a
    function on [world] that returns its result next to the new world.
    The collaborators the firmware links against (GPIO and ADC driver, NVS,
    NimBLE notify, the console) are represented by fields of the same record:
    what was driven on the pins, which signal the ADC sees, what the flash
    holds, which notifications left, what was printed.

    Unsigned C integers are [Z] with the wrap-around written out; [uint8_t]
    channel indices, which the code only ever uses below 16, are [nat].
    Arrays are lists read with [!!] and written with [<[i:=x]>]; an index out
    of range is undefined behaviour in C and is never produced by the callers
    modelled here (reads default, writes do nothing). *)

From Stdlib Require Import ZArith String Ascii List Lia Bool.
From stdpp Require Import base list gmap strings pretty.

Local Open Scope Z_scope.

(** ** Fixed-width integers *)

Definition to_uint8 (z : Z) : Z := z mod 2 ^ 8.
Definition to_uint16 (z : Z) : Z := z mod 2 ^ 16.
Definition to_uint32 (z : Z) : Z := z mod 2 ^ 32.

Definition INT_MIN : Z := - 2 ^ 31.
Definition INT_MAX : Z := 2 ^ 31 - 1.

(** ** onion_config.h *)

Definition MUX_S0 : Z := 18.
Definition MUX_S1 : Z := 19.
Definition MUX_S2 : Z := 21.
Definition MUX_S3 : Z := 22.
Definition MUX_CHANNELS_COUNT : nat := 16.
Definition STATUS_LED_GPIO : Z := 2.
Definition DEFAULT_THRESHOLD : Z := 3900.

Record onion_key_t := OnionKey {
  keycode : Z;        (* uint8_t  *)
  threshold : Z;      (* uint16_t *)
  is_pressed : bool
}.

#[global] Instance onion_key_eq_dec : EqDecision onion_key_t.
Proof. solve_decision. Defined.

(** ** The collaborators *)

(** The ESP-IDF error codes the firmware distinguishes. *)
Inductive esp_err_t :=
| ESP_OK
| ESP_FAIL
| ESP_ERR_NVS_NOT_FOUND
| ESP_ERR_NVS_INVALID_LENGTH
| ESP_ERR_NVS_NOT_INITIALIZED.

#[global] Instance esp_err_eq_dec : EqDecision esp_err_t.
Proof. solve_decision. Defined.

Definition esp_err_to_name (e : esp_err_t) : string :=
  match e with
  | ESP_OK => "ESP_OK"
  | ESP_FAIL => "ESP_FAIL"
  | ESP_ERR_NVS_NOT_FOUND => "ESP_ERR_NVS_NOT_FOUND"
  | ESP_ERR_NVS_INVALID_LENGTH => "ESP_ERR_NVS_INVALID_LENGTH"
  | ESP_ERR_NVS_NOT_INITIALIZED => "ESP_ERR_NVS_NOT_INITIALIZED"
  end.

(** The durable key-value store.  The blob the firmware writes is the
    image of the whole [onion_lut] array; a blob is kept here as the list of
    the records it holds, and the flash may hold one of any length.  The four
    result fields say what the medium answers to open, read, write and
    commit requests ([ESP_OK] when healthy); [nvs_entries] is what the flash
    holds. *)
Record nvs_t := Nvs {
  nvs_open_res : esp_err_t;
  nvs_read_res : esp_err_t;
  nvs_write_res : esp_err_t;
  nvs_commit_res : esp_err_t;
  nvs_entries : gmap string (list onion_key_t)
}.

Definition nvs_open (n : nvs_t) : esp_err_t := nvs_open_res n.

(** [nvs_get_blob] for a buffer of [records] records, as the library does
    it: a medium that cannot be read answers with its error; a missing key
    is [ESP_ERR_NVS_NOT_FOUND]; a stored blob larger than the buffer is
    [ESP_ERR_NVS_INVALID_LENGTH] and nothing is copied; every other blob,
    also one smaller than the buffer, is copied with [ESP_OK].  The second
    component is the data copied, if any; it lands on the head of the
    buffer (see [blob_into]). *)
Definition nvs_get_blob (key : string) (records : nat) (n : nvs_t)
  : esp_err_t * option (list onion_key_t) :=
  match nvs_read_res n with
  | ESP_OK =>
      match nvs_entries n !! key with
      | None => (ESP_ERR_NVS_NOT_FOUND, None)
      | Some b =>
          if decide (length b <= records)%nat then (ESP_OK, Some b)
          else (ESP_ERR_NVS_INVALID_LENGTH, None)
      end
  | e => (e, None)
  end.

(** The buffer after a blob has been copied to its head: what lies behind
    the copied records stays as it was. *)
Definition blob_into (b buf : list onion_key_t) : list onion_key_t :=
  b ++ drop (length b) buf.

Definition nvs_set_blob (key : string) (b : list onion_key_t) (n : nvs_t)
  : esp_err_t * nvs_t :=
  match nvs_write_res n with
  | ESP_OK =>
      (ESP_OK, {| nvs_open_res := nvs_open_res n;
                  nvs_read_res := nvs_read_res n;
                  nvs_write_res := nvs_write_res n;
                  nvs_commit_res := nvs_commit_res n;
                  nvs_entries := <[key := b]> (nvs_entries n) |})
  | e => (e, n)
  end.

Definition nvs_commit (n : nvs_t) : esp_err_t := nvs_commit_res n.

(** One GATT notification: connection handle, attribute handle, payload. *)
Definition notification : Type := Z * Z * list Z.

(** The levels of esp_log.h that the firmware uses. *)
Inductive esp_log_level_t :=
| ESP_LOG_ERROR
| ESP_LOG_WARN
| ESP_LOG_INFO
| ESP_LOG_DEBUG.

(** ** The state of the firmware and of its surroundings *)

Record world := World {
  (* onion_touch.c *)
  last_states : list bool;
  onion_lut : list onion_key_t;
  (* onion_ble.c *)
  last_raw_values : list Z;
  conn_handle : Z;
  report_handle : Z;
  is_app_connected : bool;
  (* GPIO output latches, by pin number *)
  gpio : gmap Z Z;
  (* the analog signal behind the multiplexer: selected channel and the
     number of conversions made so far give the next raw conversion *)
  adc_signal : nat -> nat -> Z;
  adc_reads : nat;
  (* NVS flash *)
  nvs : nvs_t;
  (* notifications handed to the BLE host stack, oldest first *)
  ble_tx : list notification;
  (* bytes written to the console link, by printf and by the logger *)
  stdout : string;
  (* the messages passed to ESP_LOGx, oldest first, whatever their level *)
  esp_log : list string;
  (* the logging library: the line it writes for a call, given how many
     calls were made before, the level, the tag and the message; prefix,
     timestamp, colour codes and line end are the library's business *)
  esp_log_line : nat -> esp_log_level_t -> string -> string -> string
}.

Definition set_last_states (v : list bool) (w : world) : world :=
  World v (onion_lut w) (last_raw_values w) (conn_handle w) (report_handle w)
        (is_app_connected w) (gpio w) (adc_signal w) (adc_reads w) (nvs w)
        (ble_tx w) (stdout w) (esp_log w)
        (esp_log_line w).
Definition set_onion_lut (v : list onion_key_t) (w : world) : world :=
  World (last_states w) v (last_raw_values w) (conn_handle w) (report_handle w)
        (is_app_connected w) (gpio w) (adc_signal w) (adc_reads w) (nvs w)
        (ble_tx w) (stdout w) (esp_log w)
        (esp_log_line w).
Definition set_last_raw_values (v : list Z) (w : world) : world :=
  World (last_states w) (onion_lut w) v (conn_handle w) (report_handle w)
        (is_app_connected w) (gpio w) (adc_signal w) (adc_reads w) (nvs w)
        (ble_tx w) (stdout w) (esp_log w)
        (esp_log_line w).
Definition set_conn_handle (v : Z) (w : world) : world :=
  World (last_states w) (onion_lut w) (last_raw_values w) v (report_handle w)
        (is_app_connected w) (gpio w) (adc_signal w) (adc_reads w) (nvs w)
        (ble_tx w) (stdout w) (esp_log w)
        (esp_log_line w).
Definition set_is_app_connected (v : bool) (w : world) : world :=
  World (last_states w) (onion_lut w) (last_raw_values w) (conn_handle w)
        (report_handle w) v (gpio w) (adc_signal w) (adc_reads w) (nvs w)
        (ble_tx w) (stdout w) (esp_log w)
        (esp_log_line w).
Definition set_gpio (v : gmap Z Z) (w : world) : world :=
  World (last_states w) (onion_lut w) (last_raw_values w) (conn_handle w)
        (report_handle w) (is_app_connected w) v (adc_signal w) (adc_reads w)
        (nvs w) (ble_tx w) (stdout w) (esp_log w)
        (esp_log_line w).
Definition set_adc_reads (v : nat) (w : world) : world :=
  World (last_states w) (onion_lut w) (last_raw_values w) (conn_handle w)
        (report_handle w) (is_app_connected w) (gpio w) (adc_signal w) v
        (nvs w) (ble_tx w) (stdout w) (esp_log w)
        (esp_log_line w).
Definition set_nvs (v : nvs_t) (w : world) : world :=
  World (last_states w) (onion_lut w) (last_raw_values w) (conn_handle w)
        (report_handle w) (is_app_connected w) (gpio w) (adc_signal w)
        (adc_reads w) v (ble_tx w) (stdout w) (esp_log w)
        (esp_log_line w).
Definition set_ble_tx (v : list notification) (w : world) : world :=
  World (last_states w) (onion_lut w) (last_raw_values w) (conn_handle w)
        (report_handle w) (is_app_connected w) (gpio w) (adc_signal w)
        (adc_reads w) (nvs w) v (stdout w) (esp_log w)
        (esp_log_line w).
Definition set_stdout (v : string) (w : world) : world :=
  World (last_states w) (onion_lut w) (last_raw_values w) (conn_handle w)
        (report_handle w) (is_app_connected w) (gpio w) (adc_signal w)
        (adc_reads w) (nvs w) (ble_tx w) v (esp_log w)
        (esp_log_line w).
Definition set_esp_log (v : list string) (w : world) : world :=
  World (last_states w) (onion_lut w) (last_raw_values w) (conn_handle w)
        (report_handle w) (is_app_connected w) (gpio w) (adc_signal w)
        (adc_reads w) (nvs w) (ble_tx w) (stdout w) v
        (esp_log_line w).

Definition printf (s : string) (w : world) : world :=
  set_stdout (stdout w +:+ s) w.

(** [ESP_LOGx (tag, msg)].  The logger writes on the same console as
    [printf].  In the stock configuration it writes the calls of level
    INFO and above; the DEBUG calls produce no output. *)
Definition esp_log_printed (level : esp_log_level_t) : bool :=
  match level with
  | ESP_LOG_DEBUG => false
  | _ => true
  end.

Definition esp_log_write (level : esp_log_level_t) (tag msg : string)
    (w : world) : world :=
  let w := if esp_log_printed level
           then printf (esp_log_line w (length (esp_log w)) level tag msg) w
           else w in
  set_esp_log (esp_log w ++ [msg]) w.

Definition ESP_LOGE (tag msg : string) (w : world) : world :=
  esp_log_write ESP_LOG_ERROR tag msg w.
Definition ESP_LOGW (tag msg : string) (w : world) : world :=
  esp_log_write ESP_LOG_WARN tag msg w.
Definition ESP_LOGI (tag msg : string) (w : world) : world :=
  esp_log_write ESP_LOG_INFO tag msg w.
Definition ESP_LOGD (tag msg : string) (w : world) : world :=
  esp_log_write ESP_LOG_DEBUG tag msg w.

(** The [TAG] of each source file. *)
Definition TAG_MAIN : string := "ONION_MAIN".
Definition TAG_BLE : string := "ONION_BLE".
Definition TAG_CONFIG : string := "ONION_CONFIG".

(** A counted loop [for (i = 0; i < n; i++) body], body applied to
    [0], [1], ..., [n-1] in this order. *)
Fixpoint for_upto {A : Type} (n : nat) (body : nat -> A -> A) (a : A) : A :=
  match n with
  | O => a
  | S k => body k (for_upto k body a)
  end.

(** ** onion_touch.c *)

Definition NVS_KEY_LUT : string := "onion_lut".

Definition default_lut : list onion_key_t :=
  map (fun k => OnionKey k DEFAULT_THRESHOLD false)
      [0x1A; 0x16; 0x04; 0x07; 0x2C; 0x08; 0x0B; 0x0A;
       0x14; 0x2B; 0x4F; 0x50; 0x52; 0x51; 0x1F; 0x29].

Definition lut_at (w : world) (channel : nat) : onion_key_t :=
  default (OnionKey 0 0 false) (onion_lut w !! channel).

Definition last_state_at (w : world) (channel : nat) : bool :=
  default false (last_states w !! channel).

Definition gpio_set_level (pin level : Z) (w : world) : world :=
  set_gpio (<[pin := level]> (gpio w)) w.

Definition set_mux_address (addr : Z) (w : world) : world :=
  let w := gpio_set_level MUX_S0 (Z.land (Z.shiftr addr 0) 0x01) w in
  let w := gpio_set_level MUX_S1 (Z.land (Z.shiftr addr 1) 0x01) w in
  let w := gpio_set_level MUX_S2 (Z.land (Z.shiftr addr 2) 0x01) w in
  let w := gpio_set_level MUX_S3 (Z.land (Z.shiftr addr 3) 0x01) w in
  w.

(** The analog multiplexer: the four select lines, S0 least significant,
    give the channel routed to the ADC input. *)
Definition pin_level (w : world) (pin : Z) : Z :=
  if decide (default 0 (gpio w !! pin) = 0) then 0 else 1.

Definition mux_selected (w : world) : nat :=
  Z.to_nat (pin_level w MUX_S0 + 2 * pin_level w MUX_S1
            + 4 * pin_level w MUX_S2 + 8 * pin_level w MUX_S3).

(** [adc1_get_raw(MUX_INPUT_PIN)]: one conversion of the routed signal. *)
Definition adc1_get_raw (w : world) : Z * world :=
  (adc_signal w (mux_selected w) (adc_reads w),
   set_adc_reads (S (adc_reads w)) w).

Definition onion_touch_read (channel : nat) (w : world) : bool * world :=
  let w := set_mux_address (Z.of_nat channel) w in
  let '(raw_sum, w) :=
    for_upto 4 (fun _ '(raw_sum, w) =>
                  let '(r, w) := adc1_get_raw w in
                  (to_uint32 (raw_sum + r), w)) (0, w) in
  let adc_raw := to_uint16 (Z.shiftr raw_sum 2) in
  let w := set_last_raw_values (<[channel := adc_raw]> (last_raw_values w)) w in
  (adc_raw <? threshold (lut_at w channel), w).

Definition onion_touch_has_changed (channel : nat) (w : world) : bool * world :=
  let '(current_state, w) := onion_touch_read channel w in
  if negb (eqb current_state (last_state_at w channel)) then
    (true, set_last_states (<[channel := current_state]> (last_states w)) w)
  else (false, w).

Definition onion_config_save (w : world) : esp_err_t * world :=
  match nvs_open (nvs w) with
  | ESP_OK =>
      let '(err, n) := nvs_set_blob NVS_KEY_LUT (onion_lut w) (nvs w) in
      let w := set_nvs n w in
      match err with
      | ESP_OK =>
          let err := nvs_commit (nvs w) in
          (err, ESP_LOGI TAG_CONFIG "Flash update successful." w)
      | _ => (err, w)
      end
  | err => (err, w)
  end.

Definition onion_config_init (w : world) : esp_err_t * world :=
  match nvs_open (nvs w) with
  | ESP_OK =>
      let '(err, out) := nvs_get_blob NVS_KEY_LUT 16 (nvs w) in
      let w := match out with
               | Some b => set_onion_lut (blob_into b (onion_lut w)) w
               | None => w
               end in
      let w :=
        match err with
        | ESP_ERR_NVS_NOT_FOUND =>
            let w := ESP_LOGI TAG_CONFIG
                       "Factory reset: No stored config. Provisioning NVS..." w in
            snd (onion_config_save w)
        | ESP_OK =>
            ESP_LOGI TAG_CONFIG "Configuration synced from NVS storage." w
        | _ =>
            ESP_LOGE TAG_CONFIG
              ("NVS Data Corruption (" +:+ esp_err_to_name err +:+ ")") w
        end in
      (ESP_OK, w)
  | err =>
      (err, ESP_LOGW TAG_CONFIG
              ("NVS Open failed (" +:+ esp_err_to_name err
               +:+ "). Fallback to hardcoded defaults.") w)
  end.

(** ** onion_ble.c *)

(** [conn_handle] holds 0xFFFF while no central is connected. *)
Definition BLE_HS_CONN_HANDLE_NONE : Z := 0xFFFF.

Definition ble_gatts_notify_custom (conn attr : Z) (om : list Z) (w : world)
  : world :=
  set_ble_tx (ble_tx w ++ [(conn, attr, om)]) w.

Definition send_key_report (keycode : Z) (pressed : bool) (w : world) : world :=
  if conn_handle w =? 0xFFFF then w
  else
    let report := replicate 8 0 in
    let report := if pressed then <[2%nat := keycode]> report else report in
    ble_gatts_notify_custom (conn_handle w) (report_handle w) report w.

(** The two GAP events that move [conn_handle]. *)
Inductive ble_gap_event_t :=
| BLE_GAP_EVENT_CONNECT (status : Z) (handle : Z)
| BLE_GAP_EVENT_DISCONNECT.

Definition ble_gap_event (event : ble_gap_event_t) (w : world) : world :=
  match event with
  | BLE_GAP_EVENT_CONNECT status handle =>
      if status =? 0 then
        let w := set_conn_handle handle w in
        let w := ESP_LOGI TAG_BLE ("Connection established. Handle: "
                                   +:+ pretty (conn_handle w)) w in
        gpio_set_level STATUS_LED_GPIO 1 w
      else w
  | BLE_GAP_EVENT_DISCONNECT =>
      let w := set_conn_handle 0xFFFF w in
      let w := ESP_LOGI TAG_BLE
                 "Device disconnected. Restarting advertising." w in
      gpio_set_level STATUS_LED_GPIO 0 w
  end.

(** *** The serial command line *)

Definition NUL : ascii := "000"%char.
Definition LF : ascii := "010"%char.
Definition CR : ascii := "013"%char.

(** The C string held in a char buffer: the bytes before the first NUL. *)
Fixpoint c_str (buf : string) : string :=
  match buf with
  | EmptyString => EmptyString
  | String c rest => if decide (c = NUL) then EmptyString
                     else String c (c_str rest)
  end.

Definition isspace (c : ascii) : bool :=
  let n := nat_of_ascii c in
  ((n =? 32) || ((9 <=? n) && (n <=? 13)))%nat.

Definition isdigit (c : ascii) : bool :=
  let n := nat_of_ascii c in ((48 <=? n) && (n <=? 57))%nat.

Definition digit_value (c : ascii) : Z := Z.of_nat (nat_of_ascii c) - 48.

Fixpoint skip_space (s : string) : string :=
  match s with
  | String c rest => if isspace c then skip_space rest else s
  | EmptyString => EmptyString
  end.

Fixpoint take_digits (s : string) (acc : Z) : Z * string :=
  match s with
  | String c rest =>
      if isdigit c then take_digits rest (10 * acc + digit_value c)
      else (acc, s)
  | EmptyString => (acc, EmptyString)
  end.

(** The library converts the digits with [strtol]: a value that does not
    fit an [int] is clamped to the nearest bound. *)
Definition strtol_clamp (z : Z) : Z := Z.max INT_MIN (Z.min INT_MAX z).

(** One [%d] directive: leading white space is skipped, an optional sign and
    at least one decimal digit are consumed. *)
Definition scan_d (s : string) : option (Z * string) :=
  let s := skip_space s in
  let '(neg, s) :=
    match s with
    | String "-"%char rest => (true, rest)
    | String "+"%char rest => (false, rest)
    | _ => (false, s)
    end in
  match s with
  | String c _ =>
      if isdigit c then
        let '(v, rest) := take_digits s 0 in
        Some (strtol_clamp (if neg then - v else v), rest)
      else None
  | EmptyString => None
  end.

(** An ordinary character of the format must match the next input byte. *)
Fixpoint scan_lit (lit s : string) : option string :=
  match lit with
  | EmptyString => Some s
  | String a lit' =>
      match s with
      | String b s' => if decide (a = b) then scan_lit lit' s' else None
      | EmptyString => None
      end
  end.

(** [sscanf(line, "SET:%d,%d,%d", &ch, &thr, &key)]: the values assigned, in
    order.  The call returns 3 exactly when three values are listed. *)
Definition sscanf_SET (line : string) : list Z :=
  match scan_lit "SET:" line with
  | None => []
  | Some s =>
  match scan_d s with
  | None => []
  | Some (ch, s) =>
  match scan_lit "," s with
  | None => [ch]
  | Some s =>
  match scan_d s with
  | None => [ch]
  | Some (thr, s) =>
  match scan_lit "," s with
  | None => [ch; thr]
  | Some s =>
  match scan_d s with
  | None => [ch; thr]
  | Some (key, _) => [ch; thr; key]
  end end end end end end.

Definition set_lut_threshold (ch : nat) (thr : Z) (w : world) : world :=
  let k := lut_at w ch in
  set_onion_lut
    (<[ch := OnionKey (keycode k) thr (is_pressed k)]> (onion_lut w)) w.

Definition set_lut_keycode (ch : nat) (key : Z) (w : world) : world :=
  let k := lut_at w ch in
  set_onion_lut
    (<[ch := OnionKey key (threshold k) (is_pressed k)]> (onion_lut w)) w.

(** The body of [if (line_ptr > 0) { ... }] in [onion_comms_task], run on the
    NUL-terminated line. *)
Definition process_line (line : string) (w : world) : world :=
  if decide (line = "CONNECT") then
    let w := set_is_app_connected true w in
    for_upto 16 (fun i w =>
      printf ("CFG:" +:+ pretty (Z.of_nat i) +:+ ","
              +:+ pretty (threshold (lut_at w i)) +:+ ","
              +:+ pretty (keycode (lut_at w i)) +:+ String LF "") w) w
  else if decide (line = "DISCONNECT") then
    set_is_app_connected false w
  else if String.prefix "SET:" line then
    match sscanf_SET line with
    | [ch; thr; key] =>
        if (0 <=? ch) && (ch <? 16) then
          let w := set_lut_threshold (Z.to_nat ch) (to_uint16 thr) w in
          let w := set_lut_keycode (Z.to_nat ch) (to_uint8 key) w in
          snd (onion_config_save w)
        else w
    | _ => w
    end
  else w.

(** The telemetry half of one pass of the task loop. *)
Definition telemetry (w : world) : world :=
  if is_app_connected w then
    let w := printf "RAW:" w in
    let w := for_upto 16 (fun i w =>
      printf (pretty (default 0 (last_raw_values w !! i))
              +:+ (if decide (i = 15%nat) then "" else ",")) w) w in
    printf (String LF "") w
  else w.

(** One pass of the [while(1)] loop of [onion_comms_task].  [c] is what
    [fgetc(stdin)] returned ([None] for EOF); the task's locals are the
    line buffer, of which [line] is the first [line_ptr] bytes. *)
Definition onion_comms_pass (c : option ascii) (st : string * world)
  : string * world :=
  let '(line, w) := st in
  let '(line, w) :=
    match c with
    | Some c =>
        if bool_decide (c = LF) || bool_decide (c = CR)
           || (127 <=? String.length line)%nat then
          let w := if (0 <? String.length line)%nat
                   then process_line (c_str line) w else w in
          (EmptyString, w)
        else (line +:+ String c "", w)
    | None => (line, w)
    end in
  (line, telemetry w).

(** Feeding the task a sequence of [fgetc] results, one per pass. *)
Definition onion_comms_run (input : list (option ascii)) (st : string * world)
  : string * world :=
  fold_left (fun st c => onion_comms_pass c st) input st.

(** ** OnionController.c *)

(** The body of the channel loop; [activity_detected] is threaded along. *)
Definition scan_channel (channel_idx : nat) (st : bool * world) : bool * world :=
  let '(activity_detected, w) := st in
  let '(changed, w) := onion_touch_has_changed channel_idx w in
  if changed then
    let '(pressed, w) := onion_touch_read channel_idx w in
    let w := send_key_report (keycode (lut_at w channel_idx)) pressed w in
    let w := ESP_LOGD TAG_MAIN
               ("Channel " +:+ pretty (Z.of_nat channel_idx) +:+ ": "
                +:+ (if pressed then "Pressed" else "Released")) w in
    (true, w)
  else (activity_detected, w).

(** One pass of the [while (1)] loop of [app_main]: the new world and the
    number of milliseconds handed to [vTaskDelay(pdMS_TO_TICKS(...))]. *)
Definition scan_cycle (w : world) : Z * world :=
  let '(activity_detected, w) :=
    for_upto MUX_CHANNELS_COUNT scan_channel (false, w) in
  (if activity_detected then 10 else 50, w).

(** A line of the logger in its stock format, without colour codes: the
    letter of the level, the timestamp, the tag and the message. *)
Definition esp_log_letter (level : esp_log_level_t) : string :=
  match level with
  | ESP_LOG_ERROR => "E"
  | ESP_LOG_WARN => "W"
  | ESP_LOG_INFO => "I"
  | ESP_LOG_DEBUG => "D"
  end.

Definition log_format (timestamp : Z) (level : esp_log_level_t)
    (tag msg : string) : string :=
  esp_log_letter level +:+ " (" +:+ pretty timestamp +:+ ") " +:+ tag
  +:+ ": " +:+ msg +:+ String LF "".

(** The globals as the C initialisers leave them at reset, around a given
    flash content, analog signal and connection.  The logger is the stock
    one; the clock behind its timestamps is not modelled and reads 0. *)
Definition boot (n : nvs_t) (sig : nat -> nat -> Z) : world :=
  {| last_states := replicate 16 false;
     onion_lut := default_lut;
     last_raw_values := replicate 16 0;
     conn_handle := 0xFFFF;
     report_handle := 0;
     is_app_connected := false;
     gpio := ∅;
     adc_signal := sig;
     adc_reads := 0;
     nvs := n;
     ble_tx := [];
     stdout := "";
     esp_log := [];
     esp_log_line := fun _ => log_format 0 |}.

(** A restart: RAM is re-initialised, the flash and the signal stay. *)
Definition restart (w : world) : world := boot (nvs w) (adc_signal w).

(** ** Notions used in the statements *)

(** The [k]-th of the four conversions [onion_touch_read] makes for
    [channel] when called in [w]. *)
Definition reading (w : world) (channel : nat) (k : nat) : Z :=
  adc_signal w channel (adc_reads w + k)%nat.

(** The accumulator and the narrowing of [onion_touch_read], unrolled on the
    four conversions. *)
Definition oversample (r0 r1 r2 r3 : Z) : Z :=
  to_uint16
    (Z.shiftr
       (to_uint32 (to_uint32 (to_uint32 (to_uint32 (0 + r0) + r1) + r2) + r3))
       2).

Definition adc_raw_of (w : world) (channel : nat) : Z :=
  oversample (reading w channel 0) (reading w channel 1)
             (reading w channel 2) (reading w channel 3).

(** Both global arrays of the scan path have their 16 slots. *)
Definition arrays_ok (w : world) : Prop :=
  length (last_states w) = 16%nat /\ length (onion_lut w) = 16%nat
  /\ length (last_raw_values w) = 16%nat.

(** The world in which a scan cycle started from [w] reaches channel [c]. *)
Definition before_channel (w : world) (c : nat) : world :=
  snd (for_upto c scan_channel (false, w)).

(** Whether [onion_touch_has_changed c] reported a change in that cycle. *)
Definition edge_fired (w : world) (c : nat) : bool :=
  fst (onion_touch_has_changed c (before_channel w c)).

(** [n] successive calls of [onion_touch_has_changed] on one channel: the
    results, oldest first, and the final world. *)
Fixpoint poll (n : nat) (channel : nat) (w : world) : list bool * world :=
  match n with
  | O => ([], w)
  | S k =>
      let '(e, w) := onion_touch_has_changed channel w in
      let '(es, w) := poll k channel w in
      (e :: es, w)
  end.

(** The bytes of a line as [fgetc] delivers them, one per pass, followed by
    the newline that ends the line. *)
Definition line_bytes (line : string) : list (option ascii) :=
  map Some (list_ascii_of_string line) ++ [Some LF].

(** A byte that does not end a line. *)
Definition plain (c : ascii) : Prop := c <> LF /\ c <> CR.

(** A store that answers every request with [ESP_OK]. *)
Definition healthy (n : nvs_t) : Prop :=
  nvs_open_res n = ESP_OK /\ nvs_read_res n = ESP_OK
  /\ nvs_write_res n = ESP_OK /\ nvs_commit_res n = ESP_OK.

(** What the persistence contract is about: keycode and threshold. *)
Definition key_pair (k : onion_key_t) : Z * Z := (keycode k, threshold k).

(** A blank, healthy flash. *)
Definition nvs_blank : nvs_t := Nvs ESP_OK ESP_OK ESP_OK ESP_OK ∅.

(** A healthy flash holding, under the storage key, a blob of one record
    only. *)
Definition nvs_short : nvs_t :=
  Nvs ESP_OK ESP_OK ESP_OK ESP_OK {[ NVS_KEY_LUT := [OnionKey 4 1000 false] ]}.


(** A signal that stays at one level on every channel. *)
Definition steady_signal (v : Z) : nat -> nat -> Z := fun _ _ => v.

(** A finger settling on pad 0: the signal of channel 0 first dips just
    under the default threshold of 3900 (conversions 0 to 3), bounces just
    above it (conversions 4 to 7) and from then on stays well below it.  The
    other pads are idle. *)
Definition crossing_signal : nat -> nat -> Z :=
  fun channel k =>
    if (channel =? 0)%nat then
      if (k <? 4)%nat then 3890 else if (k <? 8)%nat then 3910 else 3800
    else 4095.

(** Freshly booted on a blank flash, a central connected with handle 1. *)
Definition w_crossing : world :=
  ble_gap_event (BLE_GAP_EVENT_CONNECT 0 1) (boot nvs_blank crossing_signal).

(** ** Notions used in the further properties *)

(** [f 0], ..., [f (n-1)] one after the other. *)
Fixpoint concat_upto (n : nat) (f : nat -> string) : string :=
  match n with
  | O => EmptyString
  | S k => concat_upto k f +:+ f k
  end.

(** The line printed for channel [i] in answer to CONNECT. *)
Definition cfg_line (w : world) (i : nat) : string :=
  "CFG:" +:+ pretty (Z.of_nat i) +:+ ","
  +:+ pretty (threshold (lut_at w i)) +:+ ","
  +:+ pretty (keycode (lut_at w i)) +:+ String LF "".

(** The telemetry line for the current sample cache. *)
Definition raw_field (w : world) (i : nat) : string :=
  pretty (default 0 (last_raw_values w !! i))
  +:+ (if decide (i = 15%nat) then "" else ",").

Definition raw_line (w : world) : string :=
  "RAW:" +:+ concat_upto 16 (raw_field w) +:+ String LF "".

(** [n] copies of a string. *)
Fixpoint repeat_string (n : nat) (s : string) : string :=
  match n with
  | O => EmptyString
  | S k => s +:+ repeat_string k s
  end.

(** The command line a host would send to set a channel. *)
Definition set_line (ch thr key : Z) : string :=
  "SET:" +:+ pretty ch +:+ "," +:+ pretty thr +:+ "," +:+ pretty key.

(** What ends a number in a SET line: the end of the line or a comma. *)
Definition ends_number (rest : string) : Prop :=
  rest = "" \/ exists r, rest = String ","%char r.

(** Fields of a record within the range of their C types. *)
Definition key_in_range (k : onion_key_t) : Prop :=
  0 <= keycode k < 256 /\ 0 <= threshold k < 65536.

(** What the program leaves of the world outside the scan path: the
    table, the flash, the console, the session and the connection. *)
Definition same_outside_scan (w w' : world) : Prop :=
  onion_lut w' = onion_lut w /\ nvs w' = nvs w /\ stdout w' = stdout w
  /\ is_app_connected w' = is_app_connected w
  /\ conn_handle w' = conn_handle w /\ report_handle w' = report_handle w
  /\ adc_signal w' = adc_signal w
  /\ length (last_states w') = length (last_states w)
  /\ length (last_raw_values w') = length (last_raw_values w).

(** What the serial task leaves of the world: everything the scan loop and
    the BLE side own. *)
Definition same_outside_comms (w w' : world) : Prop :=
  last_states w' = last_states w /\ last_raw_values w' = last_raw_values w
  /\ conn_handle w' = conn_handle w /\ report_handle w' = report_handle w
  /\ gpio w' = gpio w /\ adc_signal w' = adc_signal w
  /\ adc_reads w' = adc_reads w /\ ble_tx w' = ble_tx w.

(** The number of channels below [n] for which the cycle started from [w]
    saw an edge. *)
Fixpoint edges_upto (w : world) (n : nat) : nat :=
  match n with
  | O => O
  | S k => (edges_upto w k + (if edge_fired w k then 1 else 0))%nat
  end.

(** A flash that can be opened and read but refuses every write. *)
Definition nvs_readonly : nvs_t := Nvs ESP_OK ESP_OK ESP_FAIL ESP_OK ∅.

(** A line of exactly 127 bytes: a SET command, a NUL, and padding. *)
Definition long_line : string :=
  string_of_list_ascii
    (list_ascii_of_string "SET:5,1000,4" ++ [NUL] ++ repeat "A"%char 114).

(** The 8-byte keyboard report with one key slot. *)
Definition key_report (k : Z) (p : bool) : list Z :=
  [0; 0; if p then k else 0; 0; 0; 0; 0; 0].

(** A notification a scan cycle started from [w] may queue: for the
    current connection and report handle, with the keycode of one of the
    16 channels, or nothing, in the key slot. *)
Definition report_of (w : world) (n : notification) : Prop :=
  exists (c : nat) (p : bool),
    (c < 16)%nat
    /\ n = (conn_handle w, report_handle w,
            key_report (keycode (lut_at w c)) p).

(** The world after [n] scan cycles. *)
Fixpoint after_cycles (n : nat) (w : world) : world :=
  match n with
  | O => w
  | S k => snd (scan_cycle (after_cycles k w))
  end.

(** The activities that share the world, at the grain of one scanned
    channel, one pass of the serial task and one GAP event. *)
Inductive sys_event :=
| EvScanChannel (c : nat)
| EvComms (c : option ascii)
| EvGap (g : ble_gap_event_t).

Definition sys_step (e : sys_event) (st : string * world) : string * world :=
  match e with
  | EvScanChannel c => (fst st, snd (scan_channel c (false, snd st)))
  | EvComms c => onion_comms_pass c st
  | EvGap g => (fst st, ble_gap_event g (snd st))
  end.

Definition sys_run (evs : list sys_event) (st : string * world)
  : string * world :=
  fold_left (fun st e => sys_step e st) evs st.

(** Channels are below 16 and connection handles are real handles. *)
Definition valid_event (e : sys_event) : Prop :=
  match e with
  | EvScanChannel c => (c < 16)%nat
  | EvComms _ => True
  | EvGap (BLE_GAP_EVENT_CONNECT _ handle) => handle <> 0xFFFF
  | EvGap BLE_GAP_EVENT_DISCONNECT => True
  end.

(** The state in which [app_main] enters its loop: the globals as
    initialised, the table loaded, and an empty line buffer in the serial
    task.  Of the diagnostics of the start-up only those of the load are
    kept. *)
Definition started (n : nvs_t) (sig : nat -> nat -> Z) : string * world :=
  (EmptyString, snd (onion_config_init (boot n sig))).

(** A blob is a memory image, so its fields are within their C types. *)
Definition flash_in_range (n : nvs_t) : Prop :=
  forall b, nvs_entries n !! NVS_KEY_LUT = Some b -> Forall key_in_range b.

Definition sys_inv (st : string * world) : Prop :=
  (String.length (fst st) <= 127)%nat
  /\ arrays_ok (snd st)
  /\ Forall key_in_range (onion_lut (snd st))
  /\ Forall (fun v => 0 <= v < 65536) (last_raw_values (snd st))
  /\ (conn_handle (snd st) = 0xFFFF <-> pin_level (snd st) STATUS_LED_GPIO = 0).

(** * Properties *)

(** ** Sampling *)

Lemma gpio_set_mux_address (addr : Z) (w : world) :
  gpio (set_mux_address addr w)
  = <[MUX_S3 := Z.land (Z.shiftr addr 3) 1]>
      (<[MUX_S2 := Z.land (Z.shiftr addr 2) 1]>
        (<[MUX_S1 := Z.land (Z.shiftr addr 1) 1]>
          (<[MUX_S0 := Z.land (Z.shiftr addr 0) 1]> (gpio w)))).
Proof. reflexivity. Qed.

(** Driving the four select lines with the bits of a channel below 16 routes
    that channel. *)
Lemma mux_selected_set_mux_address (channel : nat) (w : world) :
  (channel < 16)%nat ->
  mux_selected (set_mux_address (Z.of_nat channel) w) = channel.
Proof.
  intros Hc. unfold mux_selected, pin_level.
  rewrite gpio_set_mux_address.
  unfold MUX_S0, MUX_S1, MUX_S2, MUX_S3.
  rewrite lookup_insert_ne by lia.
  rewrite lookup_insert_ne by lia.
  rewrite lookup_insert_ne by lia.
  rewrite (lookup_insert_ne _ 22 19) by lia.
  rewrite (lookup_insert_ne _ 21 19) by lia.
  rewrite (lookup_insert_ne _ 22 21) by lia.
  rewrite !lookup_insert_eq. cbn [default].
  do 16 (destruct channel as [|channel]; [vm_compute; reflexivity|]).
  lia.
Qed.

Lemma mux_selected_set_adc_reads (n : nat) (w : world) :
  mux_selected (set_adc_reads n w) = mux_selected w.
Proof. reflexivity. Qed.

(** [onion_touch_read] in closed form. *)
Lemma onion_touch_read_eq (channel : nat) (w : world) :
  (channel < 16)%nat ->
  onion_touch_read channel w
  = (adc_raw_of w channel <? threshold (lut_at w channel),
     set_last_raw_values
       (<[channel := adc_raw_of w channel]> (last_raw_values w))
       (set_adc_reads (adc_reads w + 4)
          (set_mux_address (Z.of_nat channel) w))).
Proof.
  intros Hc. unfold onion_touch_read. cbn [for_upto].
  unfold adc1_get_raw.
  rewrite !mux_selected_set_adc_reads.
  rewrite (mux_selected_set_mux_address channel w Hc).
  cbn [adc_signal adc_reads set_adc_reads set_mux_address gpio_set_level set_gpio].
  unfold adc_raw_of, oversample, reading.
  replace (adc_reads w + 0)%nat with (adc_reads w) by lia.
  replace (adc_reads w + 1)%nat with (S (adc_reads w)) by lia.
  replace (adc_reads w + 2)%nat with (S (S (adc_reads w))) by lia.
  replace (adc_reads w + 3)%nat with (S (S (S (adc_reads w)))) by lia.
  replace (adc_reads w + 4)%nat with (S (S (S (S (adc_reads w))))) by lia.
  reflexivity.
Qed.

(** On conversions that fit 16 bits nothing wraps: the sample is the
    truncated mean. *)
Lemma oversample_mean (r0 r1 r2 r3 : Z) :
  0 <= r0 < 65536 -> 0 <= r1 < 65536 -> 0 <= r2 < 65536 -> 0 <= r3 < 65536 ->
  oversample r0 r1 r2 r3 = (r0 + r1 + r2 + r3) ÷ 4.
Proof.
  intros H0 H1 H2 H3. unfold oversample, to_uint32, to_uint16.
  rewrite Z.add_0_l.
  rewrite (Z.mod_small r0) by lia.
  rewrite (Z.mod_small (r0 + r1)) by lia.
  rewrite (Z.mod_small (r0 + r1 + r2)) by lia.
  rewrite (Z.mod_small (r0 + r1 + r2 + r3)) by lia.
  rewrite Z.shiftr_div_pow2 by lia.
  change (2 ^ 2) with 4.
  rewrite Z.quot_div_nonneg by lia.
  apply Z.mod_small.
  split.
  - apply Z.div_pos; lia.
  - apply Z.div_lt_upper_bound; lia.
Qed.

(** C8: for a channel below 16 and conversions in the range of a
    [uint16_t] (the ADC delivers 12 bits), [onion_touch_read]
    (classify) returns whether the sample, the truncating integer mean of
    the four consecutive conversions, is below the channel's threshold, and
    it stores that sample in the channel's slot of [last_raw_values]; no
    other slot, the lookup table and the edge memory are left as they were.
    A sample of 500 against a threshold of 3900 is touched, a sample of 4000
    is not. *)
Theorem onion_touch_read_classifies (w : world) (channel : nat) :
  (channel < 16)%nat ->
  arrays_ok w ->
  (forall k, (k < 4)%nat -> 0 <= reading w channel k < 65536) ->
  let sample := (reading w channel 0 + reading w channel 1
                 + reading w channel 2 + reading w channel 3) ÷ 4 in
  let touched := fst (onion_touch_read channel w) in
  let w' := snd (onion_touch_read channel w) in
  touched = bool_decide (sample < threshold (lut_at w channel))
  /\ last_raw_values w' !! channel = Some sample
  /\ (forall c, c <> channel ->
        last_raw_values w' !! c = last_raw_values w !! c)
  /\ onion_lut w' = onion_lut w
  /\ last_states w' = last_states w
  /\ (sample = 500 -> threshold (lut_at w channel) = 3900 -> touched = true)
  /\ (sample = 4000 -> threshold (lut_at w channel) = 3900 -> touched = false).
Proof.
  intros Hc (_ & _ & Hraw) Hr sample touched w'.
  assert (Hs : adc_raw_of w channel = sample).
  { unfold adc_raw_of. apply oversample_mean; apply Hr; lia. }
  assert (Ht : touched = bool_decide (sample < threshold (lut_at w channel))).
  { subst touched. rewrite onion_touch_read_eq by exact Hc. cbn [fst].
    rewrite Hs. destruct (Z.ltb_spec sample (threshold (lut_at w channel)));
      [rewrite bool_decide_eq_true_2 | rewrite bool_decide_eq_false_2];
      auto; lia. }
  subst w'. rewrite onion_touch_read_eq by exact Hc. cbn [snd].
  cbn [last_raw_values set_last_raw_values onion_lut last_states].
  repeat split.
  - exact Ht.
  - rewrite Hs. apply list_lookup_insert_eq. lia.
  - intros c Hne. apply list_lookup_insert_ne. congruence.
  - intros Hsm Hth. rewrite Ht, Hsm, Hth. reflexivity.
  - intros Hsm Hth. rewrite Ht, Hsm, Hth. reflexivity.
Qed.

Lemma onion_touch_read_classifies_witness :
  (3 < 16)%nat
  /\ arrays_ok (boot nvs_blank (steady_signal 500))
  /\ (forall k, (k < 4)%nat ->
        0 <= reading (boot nvs_blank (steady_signal 500)) 3 k < 65536)
  /\ fst (onion_touch_read 3 (boot nvs_blank (steady_signal 500))) = true
  /\ last_raw_values (snd (onion_touch_read 3 (boot nvs_blank (steady_signal 500))))
       !! 3%nat = Some 500
  /\ fst (onion_touch_read 3 (boot nvs_blank (steady_signal 4000))) = false.
Proof.
  assert (Hc : (3 < 16)%nat) by lia.
  assert (Ha : forall v, arrays_ok (boot nvs_blank (steady_signal v)))
    by (intros v; repeat split; reflexivity).
  assert (Hr : forall v, 0 <= v < 65536 -> forall k, (k < 4)%nat ->
             0 <= reading (boot nvs_blank (steady_signal v)) 3 k < 65536)
    by (intros v Hv k _; exact Hv).
  split; [exact Hc|]. split; [apply Ha|]. split; [apply Hr; lia|].
  destruct (onion_touch_read_classifies (boot nvs_blank (steady_signal 500)) 3
              Hc (Ha 500) (Hr 500 ltac:(lia)))
    as (_ & Hraw & _ & _ & _ & H500 & _).
  destruct (onion_touch_read_classifies (boot nvs_blank (steady_signal 4000)) 3
              Hc (Ha 4000) (Hr 4000 ltac:(lia)))
    as (_ & _ & _ & _ & _ & _ & H4000).
  split; [apply H500; reflexivity|].
  split; [exact Hraw|].
  apply H4000; reflexivity.
Defined.


(** ** Edge detection *)

(** What [onion_touch_read] leaves alone. *)
Lemma onion_touch_read_frame (channel : nat) (w : world) :
  let w' := snd (onion_touch_read channel w) in
  last_states w' = last_states w /\ onion_lut w' = onion_lut w
  /\ nvs w' = nvs w /\ ble_tx w' = ble_tx w /\ stdout w' = stdout w
  /\ conn_handle w' = conn_handle w /\ report_handle w' = report_handle w
  /\ adc_signal w' = adc_signal w /\ esp_log w' = esp_log w
  /\ is_app_connected w' = is_app_connected w
  /\ adc_reads w' = (adc_reads w + 4)%nat
  /\ length (last_raw_values w') = length (last_raw_values w).
Proof.
  unfold onion_touch_read. cbn [for_upto]. unfold adc1_get_raw. cbn.
  repeat split; try reflexivity; try lia.
  apply length_insert.
Qed.

Lemma last_states_read (channel : nat) (w : world) :
  last_states (snd (onion_touch_read channel w)) = last_states w.
Proof. exact (proj1 (onion_touch_read_frame channel w)). Qed.

Lemma onion_lut_read (channel : nat) (w : world) :
  onion_lut (snd (onion_touch_read channel w)) = onion_lut w.
Proof. exact (proj1 (proj2 (onion_touch_read_frame channel w))). Qed.

Lemma last_state_at_read (channel c : nat) (w : world) :
  last_state_at (snd (onion_touch_read channel w)) c = last_state_at w c.
Proof. unfold last_state_at. rewrite last_states_read. reflexivity. Qed.

Lemma lut_at_read (channel c : nat) (w : world) :
  lut_at (snd (onion_touch_read channel w)) c = lut_at w c.
Proof. unfold lut_at. rewrite onion_lut_read. reflexivity. Qed.

(** [onion_touch_has_changed] reports exactly the difference between the
    fresh classification and the remembered state. *)
Lemma has_changed_fst (channel : nat) (w : world) :
  fst (onion_touch_has_changed channel w)
  = negb (eqb (fst (onion_touch_read channel w)) (last_state_at w channel)).
Proof.
  unfold onion_touch_has_changed.
  pose proof (last_state_at_read channel channel w) as E.
  destruct (onion_touch_read channel w) as [t w1]. cbn [fst snd] in *.
  rewrite E. destruct (negb _); reflexivity.
Qed.

Lemma has_changed_snd (channel : nat) (w : world) :
  snd (onion_touch_has_changed channel w)
  = if negb (eqb (fst (onion_touch_read channel w)) (last_state_at w channel))
    then set_last_states
           (<[channel := fst (onion_touch_read channel w)]>
              (last_states (snd (onion_touch_read channel w))))
           (snd (onion_touch_read channel w))
    else snd (onion_touch_read channel w).
Proof.
  unfold onion_touch_has_changed.
  pose proof (last_state_at_read channel channel w) as E.
  destruct (onion_touch_read channel w) as [t w1]. cbn [fst snd] in *.
  rewrite E. destruct (negb _); reflexivity.
Qed.

(** The edge memory after the call, whatever the outcome. *)
Lemma has_changed_last_states (channel : nat) (w : world) :
  last_states (snd (onion_touch_has_changed channel w))
  = if negb (eqb (fst (onion_touch_read channel w)) (last_state_at w channel))
    then <[channel := fst (onion_touch_read channel w)]> (last_states w)
    else last_states w.
Proof.
  rewrite has_changed_snd.
  destruct (negb _); cbn [last_states set_last_states];
    rewrite last_states_read; reflexivity.
Qed.

(** After the call the remembered state is the classification just made. *)
Lemma has_changed_records (channel : nat) (w : world) :
  (channel < length (last_states w))%nat ->
  last_state_at (snd (onion_touch_has_changed channel w)) channel
  = fst (onion_touch_read channel w).
Proof.
  intros Hlen. unfold last_state_at at 1. rewrite has_changed_last_states.
  destruct (eqb _ _) eqn:E; cbn [negb].
  - apply eqb_prop in E. rewrite E. reflexivity.
  - rewrite list_lookup_insert_eq by exact Hlen. reflexivity.
Qed.

(** Only the slot of the polled channel can move. *)
Lemma has_changed_other (channel c : nat) (w : world) :
  c <> channel ->
  last_states (snd (onion_touch_has_changed channel w)) !! c
  = last_states w !! c.
Proof.
  intros Hne. rewrite has_changed_last_states.
  destruct (negb _); [|reflexivity].
  apply list_lookup_insert_ne. congruence.
Qed.

Lemma has_changed_length (channel : nat) (w : world) :
  length (last_states (snd (onion_touch_has_changed channel w)))
  = length (last_states w).
Proof.
  rewrite has_changed_last_states.
  destruct (negb _); rewrite ?length_insert; reflexivity.
Qed.

(** A classification equal to the remembered state is not an edge, and the
    call then does nothing beyond the read itself. *)
Lemma has_changed_same (channel : nat) (w : world) :
  fst (onion_touch_read channel w) = last_state_at w channel ->
  fst (onion_touch_has_changed channel w) = false
  /\ snd (onion_touch_has_changed channel w)
     = snd (onion_touch_read channel w).
Proof.
  intros E. rewrite has_changed_fst, has_changed_snd, E, eqb_reflx.
  split; reflexivity.
Qed.

Lemma negb_eqb_true (a b : bool) : negb (eqb a b) = true -> a = negb b.
Proof. destruct a, b; cbn; congruence. Qed.

(** The classification of a signal that stays on one side of the threshold. *)
Lemma oversample_side (r0 r1 r2 r3 thr : Z) (v : bool) :
  (forall r, r = r0 \/ r = r1 \/ r = r2 \/ r = r3 ->
             0 <= r < 65536 /\ (r <? thr) = v) ->
  (oversample r0 r1 r2 r3 <? thr) = v.
Proof.
  intros H.
  destruct (H r0) as [B0 S0]; [tauto|].
  destruct (H r1) as [B1 S1]; [tauto|].
  destruct (H r2) as [B2 S2]; [tauto|].
  destruct (H r3) as [B3 S3]; [tauto|].
  rewrite oversample_mean by assumption.
  rewrite Z.quot_div_nonneg by lia.
  destruct v.
  - apply Z.ltb_lt in S0, S1, S2, S3. apply Z.ltb_lt.
    apply Z.div_lt_upper_bound; lia.
  - apply Z.ltb_ge in S0, S1, S2, S3. apply Z.ltb_ge.
    apply Z.div_le_lower_bound; lia.
Qed.

Lemma poll_stable (n : nat) (channel : nat) :
  (channel < 16)%nat ->
  forall w : world,
  (forall k, (adc_reads w <= k)%nat ->
     0 <= adc_signal w channel k < 65536
     /\ (adc_signal w channel k <? threshold (lut_at w channel))
        = last_state_at w channel) ->
  Forall (fun e => e = false) (fst (poll n channel w))
  /\ last_states (snd (poll n channel w)) = last_states w.
Proof.
  intros Hc. induction n as [|n IH]; intros w Hst; cbn [poll].
  - split; [constructor | reflexivity].
  - assert (Hcls : fst (onion_touch_read channel w) = last_state_at w channel).
    { rewrite onion_touch_read_eq by exact Hc. cbn [fst].
      unfold adc_raw_of. apply oversample_side.
      intros r [-> | [-> | [-> | ->]]]; apply Hst; lia. }
    destruct (has_changed_same channel w Hcls) as [He Hw].
    destruct (onion_touch_read_frame channel w)
      as (Hls & Hlut & _ & _ & _ & _ & _ & Hsig & _ & _ & Hrd & _).
    rewrite <- Hw in Hls, Hlut, Hsig, Hrd.
    destruct (onion_touch_has_changed channel w) as [e w1].
    cbn [fst snd] in He, Hls, Hlut, Hsig, Hrd. clear Hw Hcls.
    destruct (IH w1) as [IH1 IH2].
    { intros k Hk. unfold lut_at, last_state_at.
      rewrite Hsig, Hlut, Hls. apply Hst. lia. }
    destruct (poll n channel w1) as [es w2]. cbn [fst snd] in *.
    split; [constructor; [exact He | exact IH1] | congruence].
Qed.

(** C4: once [onion_touch_has_changed] has reported an edge on a channel,
    the remembered state is the classification that caused it, and any later
    call that finds the channel classified the same way (the remembered state
    not having been touched in between) reports no edge and leaves the edge
    memory alone; in particular, while the signal stays on the same side of
    the threshold, any number of successive polls reports no edge at all. *)
Theorem debounce_idempotent (w : world) (channel : nat) :
  (channel < 16)%nat ->
  arrays_ok w ->
  fst (onion_touch_has_changed channel w) = true ->
  let w1 := snd (onion_touch_has_changed channel w) in
  last_state_at w1 channel = fst (onion_touch_read channel w)
  /\ last_state_at w1 channel = negb (last_state_at w channel)
  /\ (forall w2 : world,
     last_state_at w2 channel = last_state_at w1 channel ->
     fst (onion_touch_read channel w2) = last_state_at w1 channel ->
     fst (onion_touch_has_changed channel w2) = false
     /\ last_states (snd (onion_touch_has_changed channel w2))
        = last_states w2)
  /\ (forall n : nat,
        (forall k, (adc_reads w1 <= k)%nat ->
           0 <= adc_signal w1 channel k < 65536
           /\ (adc_signal w1 channel k <? threshold (lut_at w1 channel))
              = last_state_at w1 channel) ->
        Forall (fun e => e = false) (fst (poll n channel w1))
        /\ last_states (snd (poll n channel w1)) = last_states w1).
Proof.
  intros Hc Hok Hedge w1.
  assert (Hrec : last_state_at w1 channel = fst (onion_touch_read channel w)).
  { apply has_changed_records. destruct Hok as (-> & _). exact Hc. }
  clearbody w1.
  split; [exact Hrec|]. split.
  { rewrite Hrec. apply negb_eqb_true. rewrite <- has_changed_fst. exact Hedge. }
  split.
  - intros w2 Hmem Hcls.
    destruct (has_changed_same channel w2) as [He Hw].
    { rewrite Hcls. symmetry. exact Hmem. }
    split; [exact He|]. rewrite Hw. apply last_states_read.
  - intros n Hst. apply poll_stable; assumption.
Qed.

Lemma debounce_idempotent_witness :
  (3 < 16)%nat
  /\ arrays_ok (boot nvs_blank (steady_signal 500))
  /\ fst (onion_touch_has_changed 3 (boot nvs_blank (steady_signal 500))) = true
  /\ fst (onion_touch_has_changed 3
            (snd (onion_touch_has_changed 3
                    (boot nvs_blank (steady_signal 500))))) = false
  /\ Forall (fun e => e = false)
       (fst (poll 5 3 (snd (onion_touch_has_changed 3
                              (boot nvs_blank (steady_signal 500)))))).
Proof.
  assert (Hc : (3 < 16)%nat) by lia.
  assert (Ha : arrays_ok (boot nvs_blank (steady_signal 500)))
    by (repeat split; reflexivity).
  assert (He : fst (onion_touch_has_changed 3
                      (boot nvs_blank (steady_signal 500))) = true)
    by (vm_compute; reflexivity).
  split; [exact Hc|]. split; [exact Ha|]. split; [exact He|].
  destruct (debounce_idempotent (boot nvs_blank (steady_signal 500)) 3 Hc Ha He)
    as (_ & _ & Hsame & Hpoll).
  split.
  - apply (Hsame _ eq_refl). vm_compute. reflexivity.
  - apply (Hpoll 5%nat). intros k _. split.
    + change (0 <= 500 < 65536). lia.
    + vm_compute. reflexivity.
Defined.


(** ** The scan loop *)

(** The scan of one channel sets the activity flag exactly on an edge. *)
Lemma scan_channel_fst (c : nat) (act : bool) (w : world) :
  fst (scan_channel c (act, w))
  = act || fst (onion_touch_has_changed c w).
Proof.
  unfold scan_channel.
  destruct (onion_touch_has_changed c w) as [e w1]. cbn [fst].
  destruct e.
  - destruct (onion_touch_read c w1) as [p w2]. cbn [fst].
    rewrite orb_true_r. reflexivity.
  - cbn [fst]. rewrite orb_false_r. reflexivity.
Qed.

(** On an edge the scheduler classifies the channel a second time and hands
    this second result to [send_key_report]. *)
Lemma scan_channel_snd (c : nat) (act : bool) (w : world) :
  snd (scan_channel c (act, w))
  = let w1 := snd (onion_touch_has_changed c w) in
    if fst (onion_touch_has_changed c w) then
      let pressed := fst (onion_touch_read c w1) in
      let w2 := snd (onion_touch_read c w1) in
      ESP_LOGD TAG_MAIN ("Channel " +:+ pretty (Z.of_nat c) +:+ ": "
               +:+ (if pressed then "Pressed" else "Released"))
        (send_key_report (keycode (lut_at w2 c)) pressed w2)
    else w1.
Proof.
  unfold scan_channel.
  destruct (onion_touch_has_changed c w) as [e w1]. cbn [fst snd].
  destruct e; [|reflexivity].
  destruct (onion_touch_read c w1) as [p w2]. reflexivity.
Qed.

Lemma activity_detected_after (n : nat) (w : world) :
  fst (for_upto n scan_channel (false, w))
  = existsb (edge_fired w) (seq 0 n).
Proof.
  induction n as [|n IH].
  - reflexivity.
  - cbn [for_upto]. rewrite seq_S, existsb_app. cbn [existsb plus].
    rewrite orb_false_r, <- IH.
    unfold edge_fired, before_channel.
    destruct (for_upto n scan_channel (false, w)) as [act wn].
    cbn [fst snd]. apply scan_channel_fst.
Qed.

(** C9: the delay requested at the end of a scan cycle is 10 ms when
    [onion_touch_has_changed] reported an edge for at least one of the
    channels 0..15 during the cycle, and 50 ms when it reported none. *)
Theorem scan_cycle_delay (w : world) :
  fst (scan_cycle w)
  = (if existsb (edge_fired w) (seq 0 16) then 10 else 50)
  /\ ((exists c, (c < 16)%nat /\ edge_fired w c = true) ->
      fst (scan_cycle w) = 10)
  /\ ((forall c, (c < 16)%nat -> edge_fired w c = false) ->
      fst (scan_cycle w) = 50).
Proof.
  assert (E : fst (scan_cycle w)
              = if existsb (edge_fired w) (seq 0 16) then 10 else 50).
  { unfold scan_cycle, MUX_CHANNELS_COUNT.
    rewrite <- activity_detected_after.
    destruct (for_upto 16 scan_channel (false, w)) as [act w']. reflexivity. }
  split; [exact E|]. rewrite E. split.
  - intros (c & Hc & He).
    assert (X : existsb (edge_fired w) (seq 0 16) = true).
    { apply existsb_exists. exists c. split; [apply in_seq; lia | exact He]. }
    rewrite X. reflexivity.
  - intros Hall.
    assert (X : existsb (edge_fired w) (seq 0 16) = false).
    { apply not_true_is_false. intros Ht. apply existsb_exists in Ht.
      destruct Ht as (c & Hin & He). apply in_seq in Hin.
      rewrite Hall in He by lia. discriminate. }
    rewrite X. reflexivity.
Qed.

Lemma scan_cycle_delay_witness :
  (exists c, (c < 16)%nat /\ edge_fired w_crossing c = true)
  /\ fst (scan_cycle w_crossing) = 10
  /\ (forall c, (c < 16)%nat ->
        edge_fired (boot nvs_blank (steady_signal 4095)) c = false)
  /\ fst (scan_cycle (boot nvs_blank (steady_signal 4095))) = 50.
Proof.
  assert (He : exists c, (c < 16)%nat /\ edge_fired w_crossing c = true).
  { exists 0%nat. split; [lia | vm_compute; reflexivity]. }
  assert (Hn : forall c, (c < 16)%nat ->
             edge_fired (boot nvs_blank (steady_signal 4095)) c = false).
  { intros c Hc.
    do 16 (destruct c as [|c]; [vm_compute; reflexivity|]). lia. }
  split; [exact He|].
  split; [exact (proj1 (proj2 (scan_cycle_delay w_crossing)) He)|].
  split; [exact Hn|].
  exact (proj2 (proj2 (scan_cycle_delay _)) Hn).
Defined.

(** Projections through the setters, as rewriting rules. *)
Lemma onion_lut_set_last_states (v : list bool) (w : world) :
  onion_lut (set_last_states v w) = onion_lut w.
Proof. reflexivity. Qed.

Lemma ble_tx_ESP_LOG (tag msg : string) (w : world) :
  ble_tx (ESP_LOGD tag msg w) = ble_tx w.
Proof. reflexivity. Qed.

Lemma onion_lut_has_changed (c : nat) (w : world) :
  onion_lut (snd (onion_touch_has_changed c w)) = onion_lut w.
Proof.
  rewrite has_changed_snd.
  destruct (negb _); rewrite ?onion_lut_set_last_states;
    apply onion_lut_read.
Qed.

(** What [send_key_report] queues depends on the connection, the report
    handle and the queue only. *)
Lemma ble_tx_send_key_report (k : Z) (p : bool) (w w' : world) :
  conn_handle w' = conn_handle w ->
  report_handle w' = report_handle w ->
  ble_tx w' = ble_tx w ->
  ble_tx (send_key_report k p w') = ble_tx (send_key_report k p w).
Proof.
  intros Hc Hr Ht. unfold send_key_report. rewrite Hc.
  destruct (conn_handle w =? 0xFFFF); [exact Ht|].
  unfold ble_gatts_notify_custom. cbn [ble_tx set_ble_tx].
  rewrite Hr, Ht. reflexivity.
Qed.

(** When the scheduler's second sample classifies like the one that made
    the edge, the report sent is the one for the edge. *)
Lemma scan_channel_agreeing_samples (c : nat) (act : bool) (w : world) :
  fst (onion_touch_has_changed c w) = true ->
  fst (onion_touch_read c (snd (onion_touch_has_changed c w)))
  = last_state_at (snd (onion_touch_has_changed c w)) c ->
  ble_tx (snd (scan_channel c (act, w)))
  = ble_tx (send_key_report (keycode (lut_at w c))
              (last_state_at (snd (onion_touch_has_changed c w)) c)
              (snd (onion_touch_has_changed c w))).
Proof.
  intros Hedge Hagree.
  pose proof (scan_channel_snd c act w) as Hs.
  pose proof (onion_lut_has_changed c w) as Hlut.
  revert Hedge Hagree Hs Hlut.
  generalize (onion_touch_has_changed c w). intros [e w1].
  cbn [fst snd]. intros -> Hagree Hs Hlut.
  cbn zeta in Hs.
  destruct (onion_touch_read_frame c w1)
    as (_ & Hlut2 & _ & Htx & _ & Hconn & Hrep & _).
  revert Hagree Hs Hlut2 Htx Hconn Hrep.
  generalize (onion_touch_read c w1). intros [p w2].
  cbn [fst snd]. intros -> -> Hlut2 Htx Hconn Hrep.
  rewrite ble_tx_ESP_LOG.
  unfold lut_at. rewrite Hlut2, Hlut.
  apply ble_tx_send_key_report; assumption.
Qed.

(** C1: on the settling finger the scheduler does not dispatch the edge it
    detected.  [onion_touch_has_changed 0] reports an edge whose new state
    is pressed, for keycode 0x1A; the scheduler then samples the channel
    again, the bounce classifies as released, and the only report of the
    cycle is an all-zero (key up) report instead of the key-down report
    that [send_key_report 0x1A true] would have sent.  The finger then rests
    on the pad, the remembered state already says pressed, and the next
    cycle sends nothing: the key press never reaches the host. *)
Theorem scan_dispatches_second_sample :
  let w1 := snd (onion_touch_has_changed 0 w_crossing) in
  fst (onion_touch_has_changed 0 w_crossing) = true
  /\ last_state_at w1 0 = true
  /\ keycode (lut_at w1 0) = 0x1A
  /\ ble_tx (send_key_report 0x1A true w1) = [(1, 0, [0; 0; 0x1A; 0; 0; 0; 0; 0])]
  /\ fst (onion_touch_read 0 w1) = false
  /\ ble_tx (snd (scan_channel 0 (false, w_crossing)))
     = ble_tx (send_key_report 0x1A false w1)
  /\ ble_tx (snd (scan_cycle w_crossing)) = [(1, 0, [0; 0; 0; 0; 0; 0; 0; 0])]
  /\ esp_log (snd (scan_cycle w_crossing))
     = ["Connection established. Handle: 1"; "Channel 0: Released"]
  /\ ble_tx (snd (scan_cycle (snd (scan_cycle w_crossing))))
     = [(1, 0, [0; 0; 0; 0; 0; 0; 0; 0])].
Proof. repeat split; vm_compute; reflexivity. Qed.

(** C3: on the settling finger the remembered state of channel 0 is not
    the last value the classifier returned for it.  The scan of channel 0
    classifies twice: the first result (pressed) is stored by
    [onion_touch_has_changed], the second one (released), obtained by the
    scheduler's own call of [onion_touch_read], is not; the remembered state
    stays pressed until the end of the cycle. *)
Theorem last_state_misses_second_classification :
  let w1 := snd (onion_touch_has_changed 0 w_crossing) in
  let w2 := snd (scan_channel 0 (false, w_crossing)) in
  fst (onion_touch_has_changed 0 w_crossing) = true
  /\ fst (onion_touch_read 0 w1) = false
  /\ last_state_at w2 0 = true
  /\ last_state_at (snd (scan_cycle w_crossing)) 0 = true.
Proof. repeat split; vm_compute; reflexivity. Qed.

(** ** Dispatch *)

(** C6: without a connection ([conn_handle] is 0xFFFF) [send_key_report]
    returns the world as it was, so nothing is handed to
    [ble_gatts_notify_custom]; with a connection it queues exactly one
    notification, for the current connection and report handle, whose
    payload has 8 bytes: bytes 0 and 1 are 0, byte 2 is the keycode when
    pressed and 0 otherwise, bytes 3 to 7 are 0. *)
Theorem send_key_report_frame (keycode : Z) (pressed : bool) (w : world) :
  (conn_handle w = 0xFFFF -> send_key_report keycode pressed w = w)
  /\ (conn_handle w <> 0xFFFF ->
      exists report : list Z,
        send_key_report keycode pressed w
        = set_ble_tx (ble_tx w ++ [(conn_handle w, report_handle w, report)]) w
        /\ report = [0; 0; if pressed then keycode else 0; 0; 0; 0; 0; 0]
        /\ length report = 8%nat
        /\ report !! 0%nat = Some 0
        /\ report !! 1%nat = Some 0
        /\ report !! 2%nat = Some (if pressed then keycode else 0)
        /\ (forall i, (3 <= i < 8)%nat -> report !! i = Some 0)).
Proof.
  unfold send_key_report. split.
  - intros ->. reflexivity.
  - intros Hc. apply Z.eqb_neq in Hc. rewrite Hc.
    exists [0; 0; if pressed then keycode else 0; 0; 0; 0; 0; 0].
    split; [destruct pressed; reflexivity|].
    repeat split.
    intros i Hi.
    do 8 (destruct i as [|i]; [first [lia | reflexivity]|]). lia.
Qed.

Lemma send_key_report_frame_witness :
  conn_handle w_crossing <> 0xFFFF
  /\ conn_handle (boot nvs_blank crossing_signal) = 0xFFFF
  /\ ble_tx (send_key_report 0x1A true w_crossing)
     = [(1, 0, [0; 0; 0x1A; 0; 0; 0; 0; 0])]
  /\ send_key_report 0x1A true (boot nvs_blank crossing_signal)
     = boot nvs_blank crossing_signal.
Proof.
  assert (Hc : conn_handle w_crossing <> 0xFFFF) by (vm_compute; discriminate).
  assert (Hd : conn_handle (boot nvs_blank crossing_signal) = 0xFFFF)
    by reflexivity.
  split; [exact Hc|]. split; [exact Hd|]. split.
  - destruct (proj2 (send_key_report_frame 0x1A true w_crossing) Hc)
      as (report & -> & -> & _).
    reflexivity.
  - exact (proj1 (send_key_report_frame 0x1A true _) Hd).
Defined.

(** ** The keymap store *)

(** [onion_config_save] writes to the flash, and through the logger to the
    console, nothing else. *)
Lemma onion_config_save_frame (w : world) :
  let w' := snd (onion_config_save w) in
  last_states w' = last_states w /\ onion_lut w' = onion_lut w
  /\ last_raw_values w' = last_raw_values w /\ gpio w' = gpio w
  /\ ble_tx w' = ble_tx w /\ is_app_connected w' = is_app_connected w
  /\ adc_signal w' = adc_signal w.
Proof.
  unfold onion_config_save, nvs_open, nvs_set_blob.
  destruct (nvs_open_res (nvs w)); cbn; try tauto;
    destruct (nvs_write_res (nvs w)); cbn; tauto.
Qed.

(** ** The command line *)

Lemma append_cons (c : ascii) (s r : string) :
  String c s +:+ r = String c (s +:+ r).
Proof. reflexivity. Qed.

Lemma append_nil_r (s : string) : s +:+ "" = s.
Proof. induction s as [|c s IH]; [reflexivity|]. rewrite append_cons, IH. reflexivity. Qed.

Lemma append_snoc (buf : string) (c : ascii) (rest : string) :
  (buf +:+ String c "") +:+ rest = buf +:+ String c rest.
Proof.
  induction buf as [|b buf IH]; [reflexivity|].
  rewrite !append_cons, IH. reflexivity.
Qed.

Lemma length_snoc (buf : string) (c : ascii) :
  String.length (buf +:+ String c "") = S (String.length buf).
Proof.
  induction buf as [|b buf IH]; [reflexivity|].
  rewrite append_cons. cbn [String.length]. rewrite IH. reflexivity.
Qed.

Lemma scan_lit_Some (lit s r : string) :
  scan_lit lit s = Some r -> s = lit +:+ r.
Proof.
  revert s. induction lit as [|a lit IH]; intros s H; cbn in H.
  - change ("" +:+ r) with r. congruence.
  - destruct s as [|b s]; [discriminate|].
    destruct (decide (a = b)) as [->|]; [|discriminate].
    rewrite append_cons. f_equal. apply IH. exact H.
Qed.

(** A line from which [sscanf] reads three values is a SET line. *)
Lemma sscanf_SET_line (line : string) (ch thr key : Z) :
  sscanf_SET line = [ch; thr; key] ->
  exists rest, line = "SET:" +:+ rest.
Proof.
  unfold sscanf_SET. intros H.
  destruct (scan_lit "SET:" line) as [s|] eqn:E; [|discriminate].
  exists s. apply scan_lit_Some. exact E.
Qed.

(** What the command handler does with such a line. *)
Lemma process_line_SET (line : string) (ch thr key : Z) (w : world) :
  sscanf_SET line = [ch; thr; key] ->
  process_line line w
  = if (0 <=? ch) && (ch <? 16) then
      snd (onion_config_save
             (set_lut_keycode (Z.to_nat ch) (to_uint8 key)
                (set_lut_threshold (Z.to_nat ch) (to_uint16 thr) w)))
    else w.
Proof.
  intros H. destruct (sscanf_SET_line _ _ _ _ H) as [rest ->].
  unfold process_line.
  destruct (decide (_ = "CONNECT")) as [E|_]; [discriminate E|].
  destruct (decide (_ = "DISCONNECT")) as [E|_]; [discriminate E|].
  replace (String.prefix "SET:" ("SET:" +:+ rest)) with true
    by (destruct rest; reflexivity).
  rewrite H. reflexivity.
Qed.

Lemma telemetry_off (w : world) :
  is_app_connected w = false -> telemetry w = w.
Proof. unfold telemetry. intros ->. reflexivity. Qed.

(** Without a handshake the task only accumulates the bytes of a line. *)
Lemma comms_accumulates (rest : string) :
  forall (buf : string) (w : world),
  is_app_connected w = false ->
  (String.length buf + String.length rest < 128)%nat ->
  Forall plain (list_ascii_of_string rest) ->
  onion_comms_run (map Some (list_ascii_of_string rest)) (buf, w)
  = (buf +:+ rest, w).
Proof.
  induction rest as [|c rest IH]; intros buf w Hoff Hlen Hpl.
  - cbn [list_ascii_of_string map onion_comms_run fold_left].
    rewrite append_nil_r. reflexivity.
  - cbn [list_ascii_of_string map onion_comms_run fold_left].
    inversion Hpl as [|? ? [Hlf Hcr] Hpl']; subst.
    unfold onion_comms_pass at 2.
    rewrite (bool_decide_eq_false_2 _ Hlf), (bool_decide_eq_false_2 _ Hcr).
    cbn [String.length] in Hlen.
    replace (127 <=? String.length buf)%nat with false
      by (symmetry; apply Nat.leb_gt; lia).
    cbn [orb]. rewrite telemetry_off by exact Hoff.
    fold (onion_comms_run (map Some (list_ascii_of_string rest))
            (buf +:+ String c "", w)).
    rewrite IH; [| exact Hoff | | exact Hpl'].
    + rewrite append_snoc. reflexivity.
    + rewrite length_snoc. lia.
Qed.

(** A complete line reaches the command handler as its C string. *)
Lemma comms_line (line : string) (w : world) :
  is_app_connected w = false ->
  (0 < String.length line < 128)%nat ->
  Forall plain (list_ascii_of_string line) ->
  onion_comms_run (line_bytes line) ("", w)
  = ("", telemetry (process_line (c_str line) w)).
Proof.
  intros Hoff Hlen Hpl. unfold line_bytes, onion_comms_run.
  rewrite fold_left_app.
  fold (onion_comms_run (map Some (list_ascii_of_string line)) ("", w)).
  rewrite (comms_accumulates line "" w Hoff) by (cbn; lia || exact Hpl).
  change ("" +:+ line) with line.
  cbn [fold_left]. unfold onion_comms_pass.
  rewrite bool_decide_eq_true_2 by reflexivity. cbn [orb].
  replace (0 <? String.length line)%nat with true
    by (symmetry; apply Nat.ltb_lt; lia).
  reflexivity.
Qed.

(** The two field assignments of a SET command, in one step. *)
Lemma onion_lut_set_fields (c : nat) (thr key : Z) (w : world) :
  (c < length (onion_lut w))%nat ->
  onion_lut (set_lut_keycode c key (set_lut_threshold c thr w))
  = <[c := OnionKey key thr (is_pressed (lut_at w c))]> (onion_lut w).
Proof.
  intros Hc. unfold set_lut_keycode, set_lut_threshold, lut_at.
  cbn [onion_lut set_onion_lut].
  rewrite list_lookup_insert_eq by exact Hc. cbn [default keycode threshold is_pressed].
  apply list_insert_insert_eq.
Qed.

(** C7: a SET line whose channel is negative or at least 16 is dropped by
    the command handler: the world is returned as it was, so no record of
    the lookup table changes, nothing is written to the flash, nothing is
    printed and nothing is logged.  The pass of the serial task that ends
    such a line therefore leaves the world as a pass without input does (the
    periodic telemetry line, if a session is open, and nothing else).  Fed
    to the task byte by byte and ended by a newline, outside a telemetry
    session, such a line leaves the world, and with it the console output,
    untouched and the line buffer empty. *)
Theorem set_out_of_range_ignored (buf : string) (ch thr key : Z) (w : world) :
  sscanf_SET (c_str buf) = [ch; thr; key] ->
  (ch < 0 \/ 16 <= ch) ->
  let w' := process_line (c_str buf) w in
  w' = w
  /\ onion_lut w' = onion_lut w
  /\ nvs w' = nvs w
  /\ stdout w' = stdout w
  /\ esp_log w' = esp_log w
  /\ snd (onion_comms_pass (Some LF) (buf, w))
     = snd (onion_comms_pass None (buf, w))
  /\ (is_app_connected w = false ->
      (0 < String.length buf < 128)%nat ->
      Forall plain (list_ascii_of_string buf) ->
      onion_comms_run (line_bytes buf) ("", w) = ("", w)).
Proof.
  intros Hscan Hrange w'.
  assert (E : w' = w).
  { subst w'. rewrite (process_line_SET _ _ _ _ _ Hscan).
    replace ((0 <=? ch) && (ch <? 16)) with false; [reflexivity|].
    symmetry. apply andb_false_iff.
    destruct Hrange; [left; apply Z.leb_gt | right; apply Z.ltb_ge]; lia. }
  assert (P : snd (onion_comms_pass (Some LF) (buf, w))
              = snd (onion_comms_pass None (buf, w))).
  { unfold onion_comms_pass.
    rewrite bool_decide_eq_true_2 by reflexivity. cbn [orb snd].
    fold w'. rewrite E. destruct (0 <? String.length buf)%nat; reflexivity. }
  clearbody w'. subst w'.
  split; [reflexivity|]. split; [reflexivity|]. split; [reflexivity|].
  split; [reflexivity|]. split; [reflexivity|]. split; [exact P|].
  intros Hoff Hlen Hpl.
  rewrite comms_line by assumption.
  rewrite (process_line_SET _ _ _ _ _ Hscan).
  replace ((0 <=? ch) && (ch <? 16)) with false.
  - rewrite telemetry_off by exact Hoff. reflexivity.
  - symmetry. apply andb_false_iff.
    destruct Hrange; [left; apply Z.leb_gt | right; apply Z.ltb_ge]; lia.
Qed.

Lemma set_out_of_range_ignored_witness :
  sscanf_SET (c_str "SET:20,100,5") = [20; 100; 5]
  /\ (20 < 0 \/ 16 <= 20)
  /\ process_line (c_str "SET:20,100,5") (boot nvs_blank crossing_signal)
     = boot nvs_blank crossing_signal
  /\ onion_comms_run (line_bytes "SET:20,100,5")
       ("", boot nvs_blank crossing_signal)
     = ("", boot nvs_blank crossing_signal).
Proof.
  assert (Hs : sscanf_SET (c_str "SET:20,100,5") = [20; 100; 5])
    by (vm_compute; reflexivity).
  assert (Hr : 20 < 0 \/ 16 <= 20) by (right; lia).
  split; [exact Hs|]. split; [exact Hr|].
  destruct (set_out_of_range_ignored "SET:20,100,5" 20 100 5
              (boot nvs_blank crossing_signal) Hs Hr)
    as (E & _ & _ & _ & _ & _ & Hrun).
  split; [exact E|].
  apply Hrun.
  - reflexivity.
  - cbn; lia.
  - repeat constructor; discriminate.
Defined.

(** C10: for a SET line from which three integers are read and whose
    channel lies in 0..15, the command handler stores the threshold reduced
    modulo 2^16 and the keycode reduced modulo 2^8 in the record of that
    channel, whatever their sign or size, and leaves every other record as
    it was; SET:0,70000,300 stores threshold 4464 and keycode 44. *)
Theorem set_wraps_threshold_and_keycode
    (line : string) (ch thr key : Z) (w : world) :
  sscanf_SET line = [ch; thr; key] ->
  0 <= ch < 16 ->
  arrays_ok w ->
  let w' := process_line line w in
  onion_lut w' !! Z.to_nat ch
  = Some (OnionKey (key mod 2 ^ 8) (thr mod 2 ^ 16)
                   (is_pressed (lut_at w (Z.to_nat ch))))
  /\ (forall c, c <> Z.to_nat ch -> onion_lut w' !! c = onion_lut w !! c)
  /\ (line = "SET:0,70000,300" ->
      threshold (lut_at w' 0) = 4464 /\ keycode (lut_at w' 0) = 44).
Proof.
  intros Hscan Hrange (_ & Hlen & _) w'.
  assert (E : onion_lut w'
              = <[Z.to_nat ch := OnionKey (to_uint8 key) (to_uint16 thr)
                                   (is_pressed (lut_at w (Z.to_nat ch)))]>
                  (onion_lut w)).
  { subst w'. rewrite (process_line_SET _ _ _ _ _ Hscan).
    replace ((0 <=? ch) && (ch <? 16)) with true
      by (symmetry; apply andb_true_iff; split;
          [apply Z.leb_le | apply Z.ltb_lt]; lia).
    rewrite (proj1 (proj2 (onion_config_save_frame _))).
    apply onion_lut_set_fields. lia. }
  clearbody w'.
  assert (L : onion_lut w' !! Z.to_nat ch
              = Some (OnionKey (key mod 2 ^ 8) (thr mod 2 ^ 16)
                               (is_pressed (lut_at w (Z.to_nat ch))))).
  { rewrite E. apply list_lookup_insert_eq. lia. }
  split; [exact L|]. split.
  - intros c Hne. rewrite E. apply list_lookup_insert_ne. congruence.
  - intros ->. vm_compute in Hscan.
    injection Hscan as <- <- <-.
    change (Z.to_nat 0) with 0%nat in L.
    unfold lut_at. rewrite L. split; reflexivity.
Qed.

Lemma set_wraps_threshold_and_keycode_witness :
  sscanf_SET "SET:0,70000,300" = [0; 70000; 300]
  /\ 0 <= 0 < 16
  /\ arrays_ok (boot nvs_blank crossing_signal)
  /\ onion_lut (process_line "SET:0,70000,300"
                  (boot nvs_blank crossing_signal)) !! 0%nat
     = Some (OnionKey 44 4464 false).
Proof.
  assert (Hs : sscanf_SET "SET:0,70000,300" = [0; 70000; 300])
    by (vm_compute; reflexivity).
  assert (Hr : 0 <= 0 < 16) by lia.
  assert (Ha : arrays_ok (boot nvs_blank crossing_signal))
    by (repeat split; reflexivity).
  split; [exact Hs|]. split; [exact Hr|]. split; [exact Ha|].
  exact (proj1 (set_wraps_threshold_and_keycode "SET:0,70000,300" 0 70000 300
                  (boot nvs_blank crossing_signal) Hs Hr Ha)).
Defined.

(** ** Loading and saving *)

(** On a healthy store [onion_config_save] files the whole table under the
    storage key and reports success. *)
Lemma onion_config_save_healthy (w : world) :
  healthy (nvs w) ->
  fst (onion_config_save w) = ESP_OK
  /\ healthy (nvs (snd (onion_config_save w)))
  /\ nvs_entries (nvs (snd (onion_config_save w)))
     = <[NVS_KEY_LUT := onion_lut w]> (nvs_entries (nvs w)).
Proof.
  intros (Ho & Hr & Hw & Hc).
  unfold onion_config_save, nvs_open, nvs_set_blob, nvs_commit.
  rewrite Ho, Hw. cbn. rewrite Hc.
  repeat split; assumption.
Qed.


(** [nvs_get_blob] fills the buffer on success only. *)
Lemma nvs_get_blob_out (key : string) (records : nat) (n : nvs_t) :
  fst (nvs_get_blob key records n) <> ESP_OK ->
  snd (nvs_get_blob key records n) = None.
Proof.
  unfold nvs_get_blob.
  destruct (nvs_read_res n); try reflexivity.
  destruct (nvs_entries n !! key); [|reflexivity].
  destruct (decide _); [|reflexivity]. cbn. congruence.
Qed.

(** First boot: nothing is stored, the table in memory is kept and saved. *)
Lemma onion_config_init_not_found (w : world) :
  nvs_open (nvs w) = ESP_OK ->
  fst (nvs_get_blob NVS_KEY_LUT 16 (nvs w)) = ESP_ERR_NVS_NOT_FOUND ->
  onion_config_init w
  = (ESP_OK,
     snd (onion_config_save
            (ESP_LOGI TAG_CONFIG "Factory reset: No stored config. Provisioning NVS..." w))).
Proof.
  intros Ho He. unfold onion_config_init. rewrite Ho.
  pose proof (nvs_get_blob_out NVS_KEY_LUT 16 (nvs w)) as Hout.
  destruct (nvs_get_blob NVS_KEY_LUT 16 (nvs w)) as [err out].
  cbn [fst snd] in He, Hout. subst err.
  rewrite Hout by discriminate. reflexivity.
Qed.




(** A blob as large as the buffer replaces all of it. *)
Lemma blob_into_full (b buf : list onion_key_t) :
  length b = length buf -> blob_into b buf = b.
Proof.
  intros H. unfold blob_into. rewrite drop_ge by lia. apply app_nil_r.
Qed.

Lemma blob_into_length (b buf : list onion_key_t) :
  (length b <= length buf)%nat -> length (blob_into b buf) = length buf.
Proof.
  intros H. unfold blob_into. rewrite length_app, length_drop. lia.
Qed.

(** A stored blob that fits the table is copied over its head, and the
    load reports success. *)
Lemma onion_config_init_fits (w : world) (b : list onion_key_t) :
  nvs_open (nvs w) = ESP_OK ->
  nvs_read_res (nvs w) = ESP_OK ->
  nvs_entries (nvs w) !! NVS_KEY_LUT = Some b ->
  (length b <= 16)%nat ->
  onion_config_init w
  = (ESP_OK, ESP_LOGI TAG_CONFIG "Configuration synced from NVS storage."
               (set_onion_lut (blob_into b (onion_lut w)) w)).
Proof.
  intros Ho Hr Hb Hlen.
  unfold onion_config_init, nvs_get_blob.
  rewrite Ho, Hr, Hb. rewrite decide_True by exact Hlen. reflexivity.
Qed.

(** A stored table of the right size replaces the one in memory. *)
Lemma onion_config_init_found (w : world) (b : list onion_key_t) :
  healthy (nvs w) ->
  nvs_entries (nvs w) !! NVS_KEY_LUT = Some b ->
  length b = 16%nat ->
  length (onion_lut w) = 16%nat ->
  onion_config_init w
  = (ESP_OK, ESP_LOGI TAG_CONFIG "Configuration synced from NVS storage."
               (set_onion_lut b w)).
Proof.
  intros (Ho & Hr & _) Hb Hlen Hlut.
  rewrite (onion_config_init_fits w b Ho Hr Hb) by lia.
  rewrite blob_into_full by congruence. reflexivity.
Qed.

(** Saving, restarting and loading brings the saved table back, with a
    cleared edge memory. *)
Lemma save_restart_load (w : world) :
  length (onion_lut w) = 16%nat ->
  healthy (nvs w) ->
  let w2 := snd (onion_config_init (restart (snd (onion_config_save w)))) in
  fst (onion_config_save w) = ESP_OK
  /\ fst (onion_config_init (restart (snd (onion_config_save w)))) = ESP_OK
  /\ onion_lut w2 = onion_lut w
  /\ last_states w2 = replicate 16 false.
Proof.
  intros Hlen Hh.
  destruct (onion_config_save_healthy w Hh) as (Hs & Hh1 & He1).
  set (w1 := snd (onion_config_save w)) in *. clearbody w1.
  assert (Hinit : onion_config_init (restart w1)
                  = (ESP_OK, ESP_LOGI TAG_CONFIG "Configuration synced from NVS storage."
                               (set_onion_lut (onion_lut w) (restart w1)))).
  { apply onion_config_init_found.
    - exact Hh1.
    - change (nvs (restart w1)) with (nvs w1). rewrite He1.
      apply lookup_insert_eq.
    - exact Hlen.
    - reflexivity. }
  cbn zeta. rewrite Hinit. cbn [fst snd].
  repeat split. exact Hs.
Qed.

(** After a restart every channel starts from released: the first poll of a
    channel reports an edge exactly when the channel is touched. *)
Lemma first_poll_after_restart (w : world) (c : nat) :
  (c < 16)%nat ->
  last_states w = replicate 16 false ->
  fst (onion_touch_has_changed c w) = fst (onion_touch_read c w).
Proof.
  intros Hc Hls. rewrite has_changed_fst. unfold last_state_at. rewrite Hls.
  rewrite lookup_replicate_2 by exact Hc. cbn [default].
  destruct (fst (onion_touch_read c w)); reflexivity.
Qed.

(** C2: on a healthy store, saving the table, restarting and loading gives
    back a table of 16 records with exactly the saved (keycode, threshold)
    pairs, while the edge memory is not carried over: every channel starts
    again from released, so that its first poll reports an edge exactly when
    the channel is touched.  In particular, after the command SET:5,1000,4
    (which saves), a restart and a load, channel 5 has threshold 1000 and
    keycode 4, and every other channel has the keycode and threshold it had
    before the command. *)
Theorem save_load_roundtrip (w : world) :
  arrays_ok w ->
  healthy (nvs w) ->
  let w2 := snd (onion_config_init (restart (snd (onion_config_save w)))) in
  let w4 := snd (onion_config_init
                   (restart (process_line "SET:5,1000,4" w))) in
  fst (onion_config_save w) = ESP_OK
  /\ fst (onion_config_init (restart (snd (onion_config_save w)))) = ESP_OK
  /\ length (onion_lut w2) = 16%nat
  /\ map key_pair (onion_lut w2) = map key_pair (onion_lut w)
  /\ last_states w2 = replicate 16 false
  /\ (forall c, (c < 16)%nat ->
        fst (onion_touch_has_changed c w2) = fst (onion_touch_read c w2))
  /\ key_pair (lut_at w4 5) = (4, 1000)
  /\ (forall c, (c < 16)%nat -> c <> 5%nat ->
        key_pair (lut_at w4 c) = key_pair (lut_at w c)).
Proof.
  intros (Hls & Hlen & Hraw) Hh.
  destruct (save_restart_load w Hlen Hh) as (Hs & Hi & Hlut & Hst).
  cbn zeta in Hlut, Hst.
  set (w2 := snd (onion_config_init (restart (snd (onion_config_save w))))) in *.
  clearbody w2.
  assert (Hset : sscanf_SET "SET:5,1000,4" = [5; 1000; 4])
    by (vm_compute; reflexivity).
  pose proof (process_line_SET "SET:5,1000,4" 5 1000 4 w Hset) as Hp.
  change ((0 <=? 5) && (5 <? 16)) with true in Hp. cbv iota in Hp.
  change (Z.to_nat 5) with 5%nat in Hp.
  change (to_uint8 4) with 4 in Hp. change (to_uint16 1000) with 1000 in Hp.
  set (ws := set_lut_keycode 5 4 (set_lut_threshold 5 1000 w)) in *.
  assert (Hws : onion_lut ws
                = <[5%nat := OnionKey 4 1000 (is_pressed (lut_at w 5))]>
                    (onion_lut w)).
  { apply onion_lut_set_fields. lia. }
  assert (Hwn : nvs ws = nvs w) by reflexivity.
  clearbody ws.
  destruct (save_restart_load ws) as (_ & _ & Hlut4 & _).
  { rewrite Hws, length_insert. exact Hlen. }
  { rewrite Hwn. exact Hh. }
  cbn zeta in Hlut4. rewrite <- Hp in Hlut4.
  set (w4 := snd (onion_config_init
                    (restart (process_line "SET:5,1000,4" w)))) in *.
  clearbody w4. cbn zeta.
  split; [exact Hs|]. split; [exact Hi|].
  split; [rewrite Hlut; exact Hlen|].
  split; [rewrite Hlut; reflexivity|].
  split; [exact Hst|].
  split; [intros c Hc; apply first_poll_after_restart; assumption|].
  split.
  - unfold lut_at. rewrite Hlut4, Hws.
    rewrite list_lookup_insert_eq by lia. reflexivity.
  - intros c Hc Hne. unfold lut_at. rewrite Hlut4, Hws.
    rewrite list_lookup_insert_ne by congruence. reflexivity.
Qed.

Lemma save_load_roundtrip_witness :
  arrays_ok (boot nvs_blank crossing_signal)
  /\ healthy (nvs (boot nvs_blank crossing_signal))
  /\ map key_pair
       (onion_lut
          (snd (onion_config_init
                  (restart (snd (onion_config_save
                                   (boot nvs_blank crossing_signal)))))))
     = map key_pair default_lut
  /\ key_pair
       (lut_at (snd (onion_config_init
                       (restart (process_line "SET:5,1000,4"
                                   (boot nvs_blank crossing_signal))))) 5)
     = (4, 1000).
Proof.
  assert (Ha : arrays_ok (boot nvs_blank crossing_signal))
    by (repeat split; reflexivity).
  assert (Hh : healthy (nvs (boot nvs_blank crossing_signal)))
    by (repeat split; reflexivity).
  split; [exact Ha|]. split; [exact Hh|].
  destruct (save_load_roundtrip (boot nvs_blank crossing_signal) Ha Hh)
    as (_ & _ & _ & Hm & _ & _ & H5 & _).
  split; [exact Hm | exact H5].
Defined.

(** ** Who writes the edge memory *)

Lemma for_upto_invariant {A : Type} (P : A -> Prop) (n : nat)
    (body : nat -> A -> A) (a : A) :
  P a -> (forall i x, P x -> P (body i x)) -> P (for_upto n body a).
Proof.
  intros Ha Hb. induction n as [|n IH]; cbn [for_upto]; auto.
Qed.

(** Loading, saving and the command handler (CONNECT, DISCONNECT, SET) never
    write [last_states]; [send_key_report] does not either. *)
Lemma store_keeps_last_states (line : string) (w : world) :
  last_states (snd (onion_config_init w)) = last_states w
  /\ last_states (snd (onion_config_save w)) = last_states w
  /\ last_states (process_line line w) = last_states w.
Proof.
  assert (Hsave : forall x, last_states (snd (onion_config_save x))
                            = last_states x).
  { intros x. exact (proj1 (onion_config_save_frame x)). }
  split; [|split].
  - unfold onion_config_init.
    destruct (nvs_open (nvs w)); try reflexivity.
    destruct (nvs_get_blob NVS_KEY_LUT 16 (nvs w)) as [err out].
    destruct out as [b|], err; try reflexivity; cbn [fst snd];
      rewrite Hsave; reflexivity.
  - apply Hsave.
  - unfold process_line.
    destruct (decide (line = "CONNECT")).
    { apply (for_upto_invariant (fun x => last_states x = last_states w)).
      - reflexivity.
      - intros i x Hx. exact Hx. }
    destruct (decide (line = "DISCONNECT")); [reflexivity|].
    destruct (String.prefix "SET:" line); [|reflexivity].
    destruct (sscanf_SET line) as [|ch [|thr [|key [|]]]]; try reflexivity.
    destruct ((0 <=? ch) && (ch <? 16)); [|reflexivity].
    rewrite Hsave. reflexivity.
Qed.

Lemma send_key_report_keeps_last_states (k : Z) (p : bool) (w : world) :
  last_states (send_key_report k p w) = last_states w.
Proof.
  unfold send_key_report. destruct (conn_handle w =? 0xFFFF); reflexivity.
Qed.

(** * Further properties *)

(** ** Console output of the serial task *)

Lemma append_assoc (a b c : string) : (a +:+ b) +:+ c = a +:+ (b +:+ c).
Proof.
  induction a as [|x a IH]; [reflexivity|].
  rewrite !append_cons, IH. reflexivity.
Qed.

Lemma set_stdout_id (w : world) : set_stdout (stdout w) w = w.
Proof. destruct w. reflexivity. Qed.

Lemma set_stdout_twice (u v : string) (w : world) :
  set_stdout v (set_stdout u w) = set_stdout v w.
Proof. reflexivity. Qed.

Lemma printf_set_stdout (s v : string) (w : world) :
  printf s (set_stdout v w) = set_stdout (v +:+ s) w.
Proof. reflexivity. Qed.

Lemma concat_upto_ext (n : nat) (f g : nat -> string) :
  (forall i, f i = g i) -> concat_upto n f = concat_upto n g.
Proof.
  intros E. induction n as [|n IH]; [reflexivity|].
  cbn [concat_upto]. rewrite IH, E. reflexivity.
Qed.

(** A loop that prints one piece per round prints their concatenation. *)
Lemma for_upto_printf (f : world -> nat -> string) :
  (forall v w i, f (set_stdout v w) i = f w i) ->
  forall (n : nat) (w : world),
  for_upto n (fun i w => printf (f w i) w) w
  = set_stdout (stdout w +:+ concat_upto n (f w)) w.
Proof.
  intros Hf n w. induction n as [|n IH].
  - cbn [for_upto concat_upto]. rewrite append_nil_r, set_stdout_id.
    reflexivity.
  - cbn [for_upto concat_upto]. rewrite IH.
    rewrite printf_set_stdout, Hf, append_assoc. reflexivity.
Qed.

Lemma cfg_line_set_stdout (v : string) (w : world) (i : nat) :
  cfg_line (set_stdout v w) i = cfg_line w i.
Proof. reflexivity. Qed.

Lemma raw_field_set_stdout (v : string) (w : world) (i : nat) :
  raw_field (set_stdout v w) i = raw_field w i.
Proof. reflexivity. Qed.

(** The answer to CONNECT in closed form. *)
Lemma process_line_CONNECT (w : world) :
  process_line "CONNECT" w
  = set_stdout (stdout w +:+ concat_upto 16 (cfg_line w))
      (set_is_app_connected true w).
Proof.
  unfold process_line. rewrite decide_True by reflexivity.
  change (for_upto 16 _ (set_is_app_connected true w))
    with (for_upto 16 (fun i x => printf (cfg_line x i) x)
            (set_is_app_connected true w)).
  rewrite (for_upto_printf cfg_line cfg_line_set_stdout).
  reflexivity.
Qed.

(** The telemetry of one pass in closed form. *)
Lemma telemetry_on (w : world) :
  is_app_connected w = true ->
  telemetry w = set_stdout (stdout w +:+ raw_line w) w.
Proof.
  intros Hon. unfold telemetry. rewrite Hon.
  change (for_upto 16 _ (printf "RAW:" w))
    with (for_upto 16 (fun i x => printf (raw_field x i) x)
            (printf "RAW:" w)).
  rewrite (for_upto_printf raw_field raw_field_set_stdout).
  unfold printf at 2. rewrite printf_set_stdout.
  unfold printf. rewrite set_stdout_twice.
  unfold raw_line. cbn [stdout set_stdout].
  rewrite !append_assoc.
  replace (concat_upto 16 (raw_field (set_stdout (stdout w +:+ "RAW:") w)))
    with (concat_upto 16 (raw_field w))
    by (apply concat_upto_ext; intros i; reflexivity).
  reflexivity.
Qed.

(** X1: a CONNECT line received outside a session opens the session and
    prints the 16 CFG lines, channel 0 first, built from the table as it is,
    followed in the same pass by the first telemetry line; the table, the
    flash and everything the scan loop owns are left as they were. *)
Theorem connect_dumps_table (w : world) :
  is_app_connected w = false ->
  let st := onion_comms_run (line_bytes "CONNECT") ("", w) in
  fst st = ""
  /\ is_app_connected (snd st) = true
  /\ stdout (snd st)
     = stdout w +:+ concat_upto 16 (cfg_line w) +:+ raw_line w
  /\ onion_lut (snd st) = onion_lut w
  /\ nvs (snd st) = nvs w
  /\ same_outside_comms w (snd st).
Proof.
  intros Hoff st. subst st.
  rewrite comms_line;
    [| exact Hoff | cbn; lia | repeat constructor; discriminate].
  change (c_str "CONNECT") with "CONNECT".
  rewrite process_line_CONNECT.
  rewrite telemetry_on by reflexivity.
  rewrite set_stdout_twice. cbn [fst snd stdout set_stdout].
  rewrite append_assoc.
  replace (raw_line (set_stdout (stdout w +:+ concat_upto 16 (cfg_line w))
                       (set_is_app_connected true w)))
    with (raw_line w).
  - repeat split.
  - reflexivity.
Qed.

Lemma connect_dumps_table_witness :
  is_app_connected (boot nvs_blank crossing_signal) = false
  /\ stdout (snd (onion_comms_run (line_bytes "CONNECT")
                    ("", boot nvs_blank crossing_signal)))
     = concat_upto 16 (cfg_line (boot nvs_blank crossing_signal))
       +:+ raw_line (boot nvs_blank crossing_signal).
Proof.
  assert (H : is_app_connected (boot nvs_blank crossing_signal) = false)
    by reflexivity.
  split; [exact H|].
  destruct (connect_dumps_table (boot nvs_blank crossing_signal) H)
    as (_ & _ & Hout & _).
  exact Hout.
Defined.

Lemma repeat_string_snoc (n : nat) (s : string) :
  repeat_string n s +:+ s = s +:+ repeat_string n s.
Proof.
  induction n as [|n IH]; cbn [repeat_string].
  - rewrite append_nil_r. reflexivity.
  - rewrite append_assoc, IH. reflexivity.
Qed.

Lemma comms_pass_idle (buf : string) (w : world) :
  onion_comms_pass None (buf, w) = (buf, telemetry w).
Proof. reflexivity. Qed.

(** X2: passes in which no byte arrives keep the line buffer; during a
    session each of them prints the telemetry line of the current sample
    cache, once, and outside a session they print nothing and change
    nothing. *)
Theorem idle_passes_stream_telemetry (n : nat) (buf : string) (w : world) :
  onion_comms_run (replicate n None) (buf, w)
  = (buf,
     if is_app_connected w
     then set_stdout (stdout w +:+ repeat_string n (raw_line w)) w
     else w).
Proof.
  revert w. induction n as [|n IH]; intros w.
  - cbn [replicate onion_comms_run fold_left repeat_string].
    rewrite append_nil_r, set_stdout_id. destruct (is_app_connected w);
      reflexivity.
  - cbn [replicate onion_comms_run fold_left repeat_string].
    rewrite comms_pass_idle.
    fold (onion_comms_run (replicate n None) (buf, telemetry w)).
    destruct (is_app_connected w) eqn:Hc.
    + rewrite (telemetry_on w Hc), IH.
      cbn [is_app_connected set_stdout]. rewrite Hc.
      rewrite set_stdout_twice. cbn [stdout set_stdout].
      rewrite append_assoc. reflexivity.
    + rewrite (telemetry_off w Hc), IH, Hc. reflexivity.
Qed.

(** One pass never leaves more than 127 bytes in the line buffer. *)
Lemma comms_pass_bound (c : option ascii) (buf : string) (w : world) :
  (String.length buf <= 127)%nat ->
  (String.length (fst (onion_comms_pass c (buf, w))) <= 127)%nat.
Proof.
  intros Hlen. unfold onion_comms_pass.
  destruct c as [c|]; [|exact Hlen].
  destruct (bool_decide (c = LF) || bool_decide (c = CR)
            || (127 <=? String.length buf)%nat) eqn:E; cbn [fst].
  - cbn. lia.
  - apply orb_false_iff in E as [_ E]. apply Nat.leb_gt in E.
    rewrite length_snoc. lia.
Qed.

(** X3: whatever arrives on the console, the line buffer of the serial
    task never holds more than 127 bytes, so the terminating NUL always
    fits the 128-byte array. *)
Theorem line_buffer_bounded (input : list (option ascii)) (w : world) :
  (String.length (fst (onion_comms_run input ("", w))) <= 127)%nat.
Proof.
  assert (G : forall st : string * world,
            (String.length (fst st) <= 127)%nat ->
            (String.length (fst (onion_comms_run input st)) <= 127)%nat).
  { induction input as [|c input IH]; intros [buf x] Hlen.
    - exact Hlen.
    - cbn [onion_comms_run fold_left].
      apply IH. pose proof (comms_pass_bound c buf x Hlen) as Hb.
      exact Hb. }
  apply G. cbn. lia.
Qed.

(** X4: an over-long line is cut, and the byte at the cut is lost.  When
    127 bytes that end no line have been received, the next byte, whatever
    it is, makes the task run these 127 bytes as a line and is itself thrown
    away: the buffer is empty afterwards. *)
Theorem full_buffer_drops_byte (c : ascii) (line : string) (w : world) :
  is_app_connected w = false ->
  String.length line = 127%nat ->
  Forall plain (list_ascii_of_string line) ->
  onion_comms_run (map Some (list_ascii_of_string line) ++ [Some c]) ("", w)
  = ("", telemetry (process_line (c_str line) w)).
Proof.
  intros Hoff Hlen Hpl. unfold onion_comms_run. rewrite fold_left_app.
  fold (onion_comms_run (map Some (list_ascii_of_string line)) ("", w)).
  rewrite (comms_accumulates line "" w Hoff) by (cbn; lia || exact Hpl).
  change ("" +:+ line) with line.
  cbn [fold_left]. unfold onion_comms_pass. rewrite Hlen.
  change (127 <=? 127)%nat with true. rewrite orb_true_r.
  reflexivity.
Qed.

Lemma full_buffer_drops_byte_witness :
  is_app_connected (boot nvs_blank crossing_signal) = false
  /\ String.length long_line = 127%nat
  /\ Forall plain (list_ascii_of_string long_line)
  /\ onion_comms_run (map Some (list_ascii_of_string long_line)
                      ++ [Some "X"%char])
       ("", boot nvs_blank crossing_signal)
     = ("", process_line "SET:5,1000,4" (boot nvs_blank crossing_signal)).
Proof.
  assert (H1 : is_app_connected (boot nvs_blank crossing_signal) = false)
    by reflexivity.
  assert (H2 : String.length long_line = 127%nat) by reflexivity.
  assert (H3 : Forall plain (list_ascii_of_string long_line)).
  { assert (B : forallb (fun x => negb (bool_decide (x = LF))
                                 && negb (bool_decide (x = CR)))
                 (list_ascii_of_string long_line) = true)
      by (vm_compute; reflexivity).
    rewrite forallb_forall in B.
    apply Forall_forall. intros x Hx. apply list_elem_of_In in Hx.
    specialize (B x Hx). apply andb_true_iff in B as [B1 B2].
    apply negb_true_iff, bool_decide_eq_false in B1, B2.
    split; assumption. }
  split; [exact H1|]. split; [exact H2|]. split; [exact H3|].
  rewrite (full_buffer_drops_byte "X"%char long_line _ H1 H2 H3).
  vm_compute. reflexivity.
Defined.

(** X5: a carriage return ends a line exactly as a newline does, and a line
    terminator met on an empty buffer runs no command: the newline of a
    CR LF pair acts like a pass without input. *)
Theorem terminators_interchangeable (buf : string) (w : world) :
  onion_comms_pass (Some CR) (buf, w) = onion_comms_pass (Some LF) (buf, w)
  /\ onion_comms_pass (Some LF) ("", w) = onion_comms_pass None ("", w)
  /\ onion_comms_run [Some CR; Some LF] (buf, w)
     = onion_comms_run [Some LF; None] (buf, w).
Proof.
  assert (A : forall b x, onion_comms_pass (Some CR) (b, x)
                          = onion_comms_pass (Some LF) (b, x)).
  { intros b x. unfold onion_comms_pass.
    rewrite (bool_decide_eq_true_2 (CR = CR)) by reflexivity.
    rewrite (bool_decide_eq_true_2 (LF = LF)) by reflexivity.
    rewrite orb_true_r. reflexivity. }
  assert (B : forall x, onion_comms_pass (Some LF) ("", x)
                        = onion_comms_pass None ("", x)).
  { intros x. unfold onion_comms_pass.
    rewrite !bool_decide_eq_true_2 by reflexivity. reflexivity. }
  split; [apply A|]. split; [apply B|].
  cbn [onion_comms_run fold_left]. rewrite A.
  assert (F : fst (onion_comms_pass (Some LF) (buf, w)) = "").
  { unfold onion_comms_pass.
    rewrite !bool_decide_eq_true_2 by reflexivity. reflexivity. }
  destruct (onion_comms_pass (Some LF) (buf, w)) as [b x].
  cbn [fst] in F. subst b. apply B.
Qed.

(** X6: a line that is neither CONNECT nor DISCONNECT, and that either does
    not begin with SET: or does not yield three integers, changes nothing:
    no output, no answer, no state. *)
Theorem unknown_lines_ignored (line : string) (w : world) :
  line <> "CONNECT" ->
  line <> "DISCONNECT" ->
  (String.prefix "SET:" line = false \/ length (sscanf_SET line) <> 3%nat) ->
  process_line line w = w.
Proof.
  intros H1 H2 H3. unfold process_line.
  rewrite decide_False by exact H1. rewrite decide_False by exact H2.
  destruct (String.prefix "SET:" line); [|reflexivity].
  destruct H3 as [H3|H3]; [discriminate|].
  destruct (sscanf_SET line) as [|a [|b [|c [|d l]]]]; try reflexivity.
  cbn in H3. congruence.
Qed.

Lemma unknown_lines_ignored_witness :
  process_line "connect" (boot nvs_blank crossing_signal)
  = boot nvs_blank crossing_signal
  /\ process_line "SET:3,1000" (boot nvs_blank crossing_signal)
     = boot nvs_blank crossing_signal
  /\ process_line "SET:3,abc,4" (boot nvs_blank crossing_signal)
     = boot nvs_blank crossing_signal.
Proof.
  split; [|split].
  - apply unknown_lines_ignored; [discriminate | discriminate |].
    left. reflexivity.
  - apply unknown_lines_ignored; [discriminate | discriminate |].
    right. vm_compute. discriminate.
  - apply unknown_lines_ignored; [discriminate | discriminate |].
    right. vm_compute. discriminate.
Defined.

Lemma c_str_nul (a b : string) : c_str (a +:+ String NUL b) = c_str a.
Proof.
  induction a as [|x a IH].
  - change ("" +:+ String NUL b) with (String NUL b). cbn [c_str].
    rewrite decide_True by reflexivity. reflexivity.
  - rewrite append_cons. cbn [c_str]. destruct (decide (x = NUL));
      [reflexivity | rewrite IH; reflexivity].
Qed.

(** X7: the command handler sees a line as a C string, so a NUL byte sent
    inside a line hides everything after it: the line acts as the command
    that precedes the NUL. *)
Theorem nul_hides_rest_of_line (cmd rest : string) (w : world) :
  (0 < String.length cmd)%nat ->
  onion_comms_pass (Some LF) (cmd +:+ String NUL rest, w)
  = ("", snd (onion_comms_pass (Some LF) (cmd, w))).
Proof.
  intros Hlen. unfold onion_comms_pass.
  rewrite !bool_decide_eq_true_2 by reflexivity. cbn [orb snd].
  rewrite c_str_nul.
  replace (0 <? String.length cmd)%nat with true
    by (symmetry; apply Nat.ltb_lt; exact Hlen).
  destruct cmd as [|x cmd]; [cbn in Hlen; lia|].
  rewrite append_cons. reflexivity.
Qed.

Lemma nul_hides_rest_of_line_witness :
  (0 < String.length "DISCONNECT")%nat
  /\ onion_comms_pass (Some LF)
       ("DISCONNECT" +:+ String NUL "SET:0,1,1", w_crossing)
     = ("", snd (onion_comms_pass (Some LF) ("DISCONNECT", w_crossing))).
Proof.
  assert (H : (0 < String.length "DISCONNECT")%nat) by (cbn; lia).
  split; [exact H|].
  exact (nul_hides_rest_of_line "DISCONNECT" "SET:0,1,1" w_crossing H).
Defined.

(** ** Writing the table through to the flash *)

Lemma process_line_SET_in_range (line : string) (ch thr key : Z) (w : world) :
  sscanf_SET line = [ch; thr; key] ->
  0 <= ch < 16 ->
  process_line line w
  = snd (onion_config_save
           (set_lut_keycode (Z.to_nat ch) (to_uint8 key)
              (set_lut_threshold (Z.to_nat ch) (to_uint16 thr) w))).
Proof.
  intros Hscan Hrange. rewrite (process_line_SET _ _ _ _ _ Hscan).
  replace ((0 <=? ch) && (ch <? 16)) with true; [reflexivity|].
  symmetry. apply andb_true_iff.
  split; [apply Z.leb_le | apply Z.ltb_lt]; lia.
Qed.

(** The table after a SET command that is in range. *)
Lemma onion_lut_process_SET (line : string) (ch thr key : Z) (w : world) :
  sscanf_SET line = [ch; thr; key] ->
  0 <= ch < 16 ->
  length (onion_lut w) = 16%nat ->
  onion_lut (process_line line w)
  = <[Z.to_nat ch := OnionKey (to_uint8 key) (to_uint16 thr)
                       (is_pressed (lut_at w (Z.to_nat ch)))]> (onion_lut w).
Proof.
  intros Hscan Hrange Hlen.
  rewrite (process_line_SET_in_range _ _ _ _ _ Hscan Hrange).
  rewrite (proj1 (proj2 (onion_config_save_frame _))).
  apply onion_lut_set_fields. lia.
Qed.

Lemma nvs_set_fields (c : nat) (thr key : Z) (w : world) :
  nvs (set_lut_keycode c key (set_lut_threshold c thr w)) = nvs w.
Proof. reflexivity. Qed.

Lemma stdout_set_fields (c : nat) (thr key : Z) (w : world) :
  stdout (set_lut_keycode c key (set_lut_threshold c thr w)) = stdout w.
Proof. reflexivity. Qed.

(** A save that cannot open the store, or whose write is refused, leaves
    the flash as it was. *)
Lemma onion_config_save_refused (w : world) :
  nvs_open_res (nvs w) <> ESP_OK \/ nvs_write_res (nvs w) <> ESP_OK ->
  nvs (snd (onion_config_save w)) = nvs w
  /\ fst (onion_config_save w) <> ESP_OK.
Proof.
  intros H. unfold onion_config_save, nvs_open, nvs_set_blob.
  destruct (nvs_open_res (nvs w)) eqn:Ho;
    try (split; [reflexivity | discriminate]).
  destruct H as [H|H]; [congruence|].
  destruct (nvs_write_res (nvs w)) eqn:Hw; [congruence | | | |];
    (split; [destruct w as [? ? ? ? ? ? ? ? ? n ? ? ? ?]; destruct n;
             cbn in *; reflexivity
            | discriminate]).
Qed.

(** A save on a store that answers [ESP_OK] files the table in memory and
    leaves the store as healthy as it was. *)
Lemma save_files_table (w : world) :
  healthy (nvs w) ->
  nvs_entries (nvs (snd (onion_config_save w))) !! NVS_KEY_LUT
  = Some (onion_lut (snd (onion_config_save w)))
  /\ healthy (nvs (snd (onion_config_save w))).
Proof.
  intros Hh.
  destruct (onion_config_save_healthy w Hh) as (_ & Hh' & He).
  split; [|exact Hh'].
  rewrite He, (proj1 (proj2 (onion_config_save_frame w))).
  apply lookup_insert_eq.
Qed.

(** What a save puts on the console: nothing when the store cannot be
    opened or refuses the write, and otherwise the logger's line for the
    success message, whatever the commit answered. *)
Lemma onion_config_save_stdout (w : world) :
  stdout (snd (onion_config_save w))
  = if decide (nvs_open (nvs w) = ESP_OK /\ nvs_write_res (nvs w) = ESP_OK)
    then stdout w
         +:+ esp_log_line w (length (esp_log w)) ESP_LOG_INFO TAG_CONFIG
               "Flash update successful."
    else stdout w.
Proof.
  unfold onion_config_save, nvs_open, nvs_set_blob.
  destruct (nvs_open_res (nvs w)) eqn:Ho;
    try (rewrite decide_False by (intros [? _]; discriminate); reflexivity).
  destruct (nvs_write_res (nvs w)) eqn:Hw;
    try (rewrite decide_False by (intros [_ ?]; discriminate); reflexivity).
  rewrite decide_True by (split; reflexivity). reflexivity.
Qed.

(** X8: on a store that answers [ESP_OK], a SET command that is in range
    is written through: when the command handler returns, the blob filed
    under the storage key is the table in memory and the store is as
    healthy as before.  The command is not silent: the save reports through
    the logger, which writes on the console that also carries the CFG and
    RAW lines, so the console has received exactly one more line, the
    logger's line for the message of the successful save. *)
Theorem set_writes_through (line : string) (ch thr key : Z) (w : world) :
  sscanf_SET line = [ch; thr; key] ->
  0 <= ch < 16 ->
  healthy (nvs w) ->
  let w' := process_line line w in
  nvs_entries (nvs w') !! NVS_KEY_LUT = Some (onion_lut w')
  /\ healthy (nvs w')
  /\ stdout w'
     = stdout w
       +:+ esp_log_line w (length (esp_log w)) ESP_LOG_INFO TAG_CONFIG
             "Flash update successful.".
Proof.
  intros Hscan Hrange Hh w'. subst w'.
  rewrite (process_line_SET_in_range _ _ _ _ _ Hscan Hrange).
  set (ws := set_lut_keycode (Z.to_nat ch) (to_uint8 key)
               (set_lut_threshold (Z.to_nat ch) (to_uint16 thr) w)).
  assert (Hws : healthy (nvs ws)) by exact Hh.
  assert (Hso : stdout ws = stdout w) by reflexivity.
  assert (Hlg : esp_log ws = esp_log w) by reflexivity.
  assert (Hln : esp_log_line ws = esp_log_line w) by reflexivity.
  clearbody ws.
  destruct (save_files_table ws Hws) as (He & Hh').
  split; [exact He|]. split; [exact Hh'|].
  rewrite onion_config_save_stdout.
  destruct Hws as (Ho & _ & Hw & _).
  rewrite decide_True by (split; assumption).
  rewrite Hso, Hlg, Hln. reflexivity.
Qed.

Lemma set_writes_through_witness :
  sscanf_SET "SET:5,1000,4" = [5; 1000; 4]
  /\ 0 <= 5 < 16
  /\ healthy (nvs (boot nvs_blank crossing_signal))
  /\ nvs_entries
       (nvs (process_line "SET:5,1000,4" (boot nvs_blank crossing_signal)))
       !! NVS_KEY_LUT
     = Some (onion_lut
               (process_line "SET:5,1000,4" (boot nvs_blank crossing_signal))).
Proof.
  assert (Hs : sscanf_SET "SET:5,1000,4" = [5; 1000; 4])
    by (vm_compute; reflexivity).
  assert (Hr : 0 <= 5 < 16) by lia.
  assert (Hh : healthy (nvs (boot nvs_blank crossing_signal)))
    by (repeat split; reflexivity).
  split; [exact Hs|]. split; [exact Hr|]. split; [exact Hh|].
  exact (proj1 (set_writes_through "SET:5,1000,4" 5 1000 4
                  (boot nvs_blank crossing_signal) Hs Hr Hh)).
Defined.

(** X9: the result of the save is not looked at by the command handler.
    When the store cannot be opened or refuses the write, a SET command
    that is in range still changes the table in memory, the flash keeps
    what it held, and a restart followed by a load brings back exactly what
    a restart without the command would have brought back. *)
Theorem set_not_saved_is_lost (line : string) (ch thr key : Z) (w : world) :
  sscanf_SET line = [ch; thr; key] ->
  0 <= ch < 16 ->
  length (onion_lut w) = 16%nat ->
  nvs_open_res (nvs w) <> ESP_OK \/ nvs_write_res (nvs w) <> ESP_OK ->
  let w' := process_line line w in
  onion_lut w' !! Z.to_nat ch
  = Some (OnionKey (key mod 2 ^ 8) (thr mod 2 ^ 16)
                   (is_pressed (lut_at w (Z.to_nat ch))))
  /\ nvs w' = nvs w
  /\ onion_lut (snd (onion_config_init (restart w')))
     = onion_lut (snd (onion_config_init (restart w))).
Proof.
  intros Hscan Hrange Hlen Hbad w'.
  assert (Hlut : onion_lut w' !! Z.to_nat ch
                 = Some (OnionKey (key mod 2 ^ 8) (thr mod 2 ^ 16)
                                  (is_pressed (lut_at w (Z.to_nat ch))))).
  { subst w'. rewrite (onion_lut_process_SET _ _ _ _ _ Hscan Hrange Hlen).
    apply list_lookup_insert_eq. lia. }
  assert (Hnvs : nvs w' = nvs w).
  { subst w'. rewrite (process_line_SET_in_range _ _ _ _ _ Hscan Hrange).
    set (ws := set_lut_keycode (Z.to_nat ch) (to_uint8 key)
                 (set_lut_threshold (Z.to_nat ch) (to_uint16 thr) w)).
    assert (Hbad' : nvs_open_res (nvs ws) <> ESP_OK
                    \/ nvs_write_res (nvs ws) <> ESP_OK) by exact Hbad.
    assert (Hn : nvs ws = nvs w) by reflexivity.
    clearbody ws.
    rewrite (proj1 (onion_config_save_refused ws Hbad')). exact Hn. }
  assert (Hsig : adc_signal w' = adc_signal w).
  { subst w'. rewrite (process_line_SET_in_range _ _ _ _ _ Hscan Hrange).
    rewrite (proj2 (proj2 (proj2 (proj2 (proj2 (proj2
               (onion_config_save_frame _))))))). reflexivity. }
  clearbody w'.
  split; [exact Hlut|]. split; [exact Hnvs|].
  unfold restart. rewrite Hnvs, Hsig. reflexivity.
Qed.

Lemma set_not_saved_is_lost_witness :
  sscanf_SET "SET:5,1000,4" = [5; 1000; 4]
  /\ 0 <= 5 < 16
  /\ length (onion_lut (boot nvs_readonly crossing_signal)) = 16%nat
  /\ (nvs_open_res (nvs (boot nvs_readonly crossing_signal)) <> ESP_OK
      \/ nvs_write_res (nvs (boot nvs_readonly crossing_signal)) <> ESP_OK)
  /\ key_pair (lut_at (process_line "SET:5,1000,4"
                         (boot nvs_readonly crossing_signal)) 5) = (4, 1000)
  /\ onion_lut (snd (onion_config_init
                       (restart (process_line "SET:5,1000,4"
                                   (boot nvs_readonly crossing_signal)))))
     = default_lut.
Proof.
  assert (Hs : sscanf_SET "SET:5,1000,4" = [5; 1000; 4])
    by (vm_compute; reflexivity).
  assert (Hr : 0 <= 5 < 16) by lia.
  assert (Hl : length (onion_lut (boot nvs_readonly crossing_signal)) = 16%nat)
    by reflexivity.
  assert (Hb : nvs_open_res (nvs (boot nvs_readonly crossing_signal)) <> ESP_OK
               \/ nvs_write_res (nvs (boot nvs_readonly crossing_signal))
                  <> ESP_OK)
    by (right; discriminate).
  split; [exact Hs|]. split; [exact Hr|]. split; [exact Hl|].
  split; [exact Hb|].
  destruct (set_not_saved_is_lost "SET:5,1000,4" 5 1000 4
              (boot nvs_readonly crossing_signal) Hs Hr Hl Hb)
    as (Hlut & _ & Hre).
  split.
  - unfold lut_at. change (Z.to_nat 5) with 5%nat in Hlut.
    rewrite Hlut. reflexivity.
  - rewrite Hre. vm_compute. reflexivity.
Defined.

(** X10: SET commands compose as assignments do.  Two commands for
    different channels give the same table in either order, and of two
    commands for the same channel only the second one counts. *)
Theorem set_commands_compose
    (l1 l2 : string) (c1 t1 k1 c2 t2 k2 : Z) (w : world) :
  sscanf_SET l1 = [c1; t1; k1] ->
  sscanf_SET l2 = [c2; t2; k2] ->
  0 <= c1 < 16 ->
  0 <= c2 < 16 ->
  length (onion_lut w) = 16%nat ->
  (c1 <> c2 ->
   onion_lut (process_line l2 (process_line l1 w))
   = onion_lut (process_line l1 (process_line l2 w)))
  /\ (c1 = c2 ->
      onion_lut (process_line l2 (process_line l1 w))
      = onion_lut (process_line l2 w)).
Proof.
  intros H1 H2 R1 R2 Hlen.
  pose proof (onion_lut_process_SET l1 c1 t1 k1 w H1 R1 Hlen) as E1.
  pose proof (onion_lut_process_SET l2 c2 t2 k2 w H2 R2 Hlen) as E2.
  assert (L1 : length (onion_lut (process_line l1 w)) = 16%nat)
    by (rewrite E1, length_insert; exact Hlen).
  assert (L2 : length (onion_lut (process_line l2 w)) = 16%nat)
    by (rewrite E2, length_insert; exact Hlen).
  pose proof (onion_lut_process_SET l2 c2 t2 k2 _ H2 R2 L1) as E21.
  pose proof (onion_lut_process_SET l1 c1 t1 k1 _ H1 R1 L2) as E12.
  unfold lut_at in E21, E12.
  set (w1 := process_line l1 w) in *. set (w2 := process_line l2 w) in *.
  clearbody w1 w2.
  split.
  - intros Hne. assert (Hn : Z.to_nat c1 <> Z.to_nat c2) by lia.
    rewrite E21, E12, E1, E2.
    rewrite list_lookup_insert_ne by exact Hn.
    rewrite list_lookup_insert_ne by (intros X; apply Hn; symmetry; exact X).
    unfold lut_at. apply list_insert_insert_ne.
    intros X; apply Hn; symmetry; exact X.
  - intros <-. rewrite E21, E1, E2.
    rewrite list_lookup_insert_eq by lia. cbn [default is_pressed].
    unfold lut_at. apply list_insert_insert_eq.
Qed.

Lemma set_commands_compose_witness :
  onion_lut (process_line "SET:3,900,7"
               (process_line "SET:5,1000,4" (boot nvs_blank crossing_signal)))
  = onion_lut (process_line "SET:5,1000,4"
                 (process_line "SET:3,900,7" (boot nvs_blank crossing_signal))).
Proof.
  refine (proj1 (set_commands_compose "SET:5,1000,4" "SET:3,900,7"
                   5 1000 4 3 900 7 (boot nvs_blank crossing_signal)
                   _ _ _ _ _) _).
  - vm_compute. reflexivity.
  - vm_compute. reflexivity.
  - lia.
  - lia.
  - reflexivity.
  - lia.
Defined.

(** ** What a scan cycle does and does not touch *)

Lemma same_outside_scan_refl (w : world) : same_outside_scan w w.
Proof. repeat split. Qed.

Lemma same_outside_scan_trans (w1 w2 w3 : world) :
  same_outside_scan w1 w2 -> same_outside_scan w2 w3 ->
  same_outside_scan w1 w3.
Proof.
  intros (A1 & A2 & A3 & A4 & A5 & A6 & A7 & A8 & A9)
         (B1 & B2 & B3 & B4 & B5 & B6 & B7 & B8 & B9).
  repeat split; congruence.
Qed.

Lemma same_outside_scan_read (c : nat) (w : world) :
  same_outside_scan w (snd (onion_touch_read c w)).
Proof.
  destruct (onion_touch_read_frame c w)
    as (Hls & Hlut & Hnvs & _ & Hout & Hconn & Hrep & Hsig & _ & Happ & _ & Hraw).
  unfold same_outside_scan.
  split; [exact Hlut|]. split; [exact Hnvs|]. split; [exact Hout|].
  split; [exact Happ|]. split; [exact Hconn|]. split; [exact Hrep|].
  split; [exact Hsig|]. split; [rewrite Hls; reflexivity | exact Hraw].
Qed.

Lemma same_outside_scan_set_last_states (v : list bool) (w : world) :
  length v = length (last_states w) ->
  same_outside_scan w (set_last_states v w).
Proof.
  intros H. unfold same_outside_scan. cbn.
  split; [reflexivity|]. split; [reflexivity|]. split; [reflexivity|].
  split; [reflexivity|]. split; [reflexivity|]. split; [reflexivity|].
  split; [reflexivity|]. split; [exact H | reflexivity].
Qed.

Lemma same_outside_scan_has_changed (c : nat) (w : world) :
  same_outside_scan w (snd (onion_touch_has_changed c w)).
Proof.
  rewrite has_changed_snd.
  pose proof (same_outside_scan_read c w) as Hr.
  set (w1 := snd (onion_touch_read c w)) in *. clearbody w1.
  destruct (negb _); [|exact Hr].
  apply (same_outside_scan_trans _ _ _ Hr).
  apply same_outside_scan_set_last_states. apply length_insert.
Qed.

Lemma same_outside_scan_send (k : Z) (p : bool) (w : world) :
  same_outside_scan w (send_key_report k p w).
Proof.
  unfold send_key_report. destruct (conn_handle w =? 0xFFFF); repeat split.
Qed.

Lemma same_outside_scan_log (msg : string) (w : world) :
  same_outside_scan w (ESP_LOGD TAG_MAIN msg w).
Proof. repeat split. Qed.

Lemma same_outside_scan_channel (c : nat) (act : bool) (w : world) :
  same_outside_scan w (snd (scan_channel c (act, w))).
Proof.
  rewrite scan_channel_snd. cbn zeta.
  pose proof (same_outside_scan_has_changed c w) as H1.
  set (w1 := snd (onion_touch_has_changed c w)) in *. clearbody w1.
  destruct (fst (onion_touch_has_changed c w)); [|exact H1].
  apply (same_outside_scan_trans _ _ _ H1).
  pose proof (same_outside_scan_read c w1) as H2.
  set (p := fst (onion_touch_read c w1)). clearbody p.
  set (w2 := snd (onion_touch_read c w1)) in *. clearbody w2.
  apply (same_outside_scan_trans _ _ _ H2).
  eapply same_outside_scan_trans;
    [apply same_outside_scan_send | apply same_outside_scan_log].
Qed.

Lemma same_outside_scan_upto (n : nat) (w : world) :
  same_outside_scan w (before_channel w n).
Proof.
  unfold before_channel. induction n as [|n IH].
  - apply same_outside_scan_refl.
  - cbn [for_upto].
    destruct (for_upto n scan_channel (false, w)) as [act wn].
    cbn [snd] in IH.
    apply (same_outside_scan_trans _ _ _ IH).
    apply same_outside_scan_channel.
Qed.

Lemma scan_cycle_snd (w : world) :
  snd (scan_cycle w) = before_channel w 16.
Proof.
  unfold scan_cycle, before_channel, MUX_CHANNELS_COUNT.
  destruct (for_upto 16 scan_channel (false, w)) as [act w']. reflexivity.
Qed.

(** X11: a scan cycle is confined to the scan path.  It never changes the
    lookup table, the flash, the console output, the telemetry session or
    the connection and report handles, and it keeps the 16 slots of the
    edge memory and of the sample cache. *)
Theorem scan_cycle_confined (w : world) :
  same_outside_scan w (snd (scan_cycle w))
  /\ (arrays_ok w -> arrays_ok (snd (scan_cycle w))).
Proof.
  rewrite scan_cycle_snd.
  pose proof (same_outside_scan_upto 16 w) as H.
  split; [exact H|].
  destruct H as (Hlut & _ & _ & _ & _ & _ & _ & Hls & Hraw).
  intros (A & B & C). repeat split; congruence.
Qed.

(** The conversions and the reports of one scanned channel. *)
Lemma adc_reads_set_last_states (v : list bool) (w : world) :
  adc_reads (set_last_states v w) = adc_reads w.
Proof. reflexivity. Qed.

Lemma ble_tx_set_last_states (v : list bool) (w : world) :
  ble_tx (set_last_states v w) = ble_tx w.
Proof. reflexivity. Qed.

Lemma adc_reads_has_changed (c : nat) (w : world) :
  adc_reads (snd (onion_touch_has_changed c w)) = (adc_reads w + 4)%nat.
Proof.
  rewrite has_changed_snd.
  destruct (negb _); rewrite ?adc_reads_set_last_states;
    apply (onion_touch_read_frame c w).
Qed.

Lemma ble_tx_has_changed (c : nat) (w : world) :
  ble_tx (snd (onion_touch_has_changed c w)) = ble_tx w.
Proof.
  rewrite has_changed_snd.
  destruct (negb _); rewrite ?ble_tx_set_last_states;
    apply (onion_touch_read_frame c w).
Qed.

Lemma adc_reads_send_log (msg : string) (k : Z) (p : bool) (w : world) :
  adc_reads (ESP_LOGD TAG_MAIN msg (send_key_report k p w)) = adc_reads w.
Proof.
  unfold send_key_report. destruct (conn_handle w =? 0xFFFF); reflexivity.
Qed.

Lemma ble_tx_send_log (msg : string) (k : Z) (p : bool) (w : world) :
  ble_tx (ESP_LOGD TAG_MAIN msg (send_key_report k p w))
  = if conn_handle w =? 0xFFFF then ble_tx w
    else ble_tx w
         ++ [(conn_handle w, report_handle w,
              if p then <[2%nat := k]> (replicate 8 0) else replicate 8 0)].
Proof.
  unfold send_key_report. destruct (conn_handle w =? 0xFFFF); reflexivity.
Qed.

Lemma adc_reads_scan_channel (c : nat) (act : bool) (w : world) :
  adc_reads (snd (scan_channel c (act, w)))
  = (adc_reads w + 4
     + (if fst (onion_touch_has_changed c w) then 4 else 0))%nat.
Proof.
  rewrite scan_channel_snd. cbn zeta.
  pose proof (adc_reads_has_changed c w) as H1.
  set (w1 := snd (onion_touch_has_changed c w)) in *. clearbody w1.
  destruct (fst (onion_touch_has_changed c w)); [|lia].
  rewrite adc_reads_send_log.
  rewrite (proj1 (proj2 (proj2 (proj2 (proj2 (proj2 (proj2 (proj2 (proj2
             (proj2 (proj2 (onion_touch_read_frame c w1)))))))))))).
  lia.
Qed.

Lemma ble_tx_scan_channel (c : nat) (act : bool) (w : world) :
  (conn_handle w = 0xFFFF ->
   ble_tx (snd (scan_channel c (act, w))) = ble_tx w)
  /\ (conn_handle w <> 0xFFFF ->
      length (ble_tx (snd (scan_channel c (act, w))))
      = (length (ble_tx w)
         + (if fst (onion_touch_has_changed c w) then 1 else 0))%nat).
Proof.
  rewrite scan_channel_snd. cbn zeta.
  pose proof (ble_tx_has_changed c w) as H1.
  destruct (same_outside_scan_has_changed c w)
    as (_ & _ & _ & _ & Hc1 & _).
  set (w1 := snd (onion_touch_has_changed c w)) in *. clearbody w1.
  destruct (fst (onion_touch_has_changed c w)).
  - rewrite ble_tx_send_log.
    destruct (onion_touch_read_frame c w1)
      as (_ & _ & _ & Htx & _ & Hc2 & _).
    set (p := fst (onion_touch_read c w1)). clearbody p.
    set (w2 := snd (onion_touch_read c w1)) in *. clearbody w2.
    rewrite Hc2, Hc1, Htx, H1. split.
    + intros ->. reflexivity.
    + intros Hne. apply Z.eqb_neq in Hne. rewrite Hne.
      rewrite length_app. reflexivity.
  - rewrite H1. split; intros _; [reflexivity | lia].
Qed.

(** X12: a scan cycle makes 64 conversions plus four more for every
    channel on which it sees an edge, because each edge is followed by a
    second sampling of the channel. *)
Theorem scan_cycle_conversions (w : world) :
  adc_reads (snd (scan_cycle w))
  = (adc_reads w + 64 + 4 * edges_upto w 16)%nat.
Proof.
  rewrite scan_cycle_snd.
  assert (G : forall n, adc_reads (before_channel w n)
                        = (adc_reads w + 4 * n + 4 * edges_upto w n)%nat).
  { induction n as [|n IH].
    - cbn. lia.
    - unfold before_channel in *. cbn [for_upto edges_upto].
      unfold edge_fired, before_channel.
      destruct (for_upto n scan_channel (false, w)) as [act wn].
      cbn [snd] in *. rewrite adc_reads_scan_channel, IH.
      destruct (fst (onion_touch_has_changed n wn)); lia. }
  rewrite G. lia.
Qed.

(** X13: without a connection a scan cycle hands nothing to the BLE stack,
    however many edges it sees; with a connection it hands over exactly
    one notification per edge. *)
Theorem scan_cycle_reports (w : world) :
  (conn_handle w = 0xFFFF -> ble_tx (snd (scan_cycle w)) = ble_tx w)
  /\ (conn_handle w <> 0xFFFF ->
      length (ble_tx (snd (scan_cycle w)))
      = (length (ble_tx w) + edges_upto w 16)%nat).
Proof.
  rewrite scan_cycle_snd. split.
  - intros Hoff.
    assert (G : forall n, ble_tx (before_channel w n) = ble_tx w).
    { induction n as [|n IH]; [reflexivity|].
      pose proof (same_outside_scan_upto n w) as (_ & _ & _ & _ & Hc & _).
      unfold before_channel in *. cbn [for_upto].
      destruct (for_upto n scan_channel (false, w)) as [act wn].
      cbn [snd] in *.
      rewrite (proj1 (ble_tx_scan_channel n act wn)) by congruence.
      exact IH. }
    apply G.
  - intros Hon.
    assert (G : forall n, length (ble_tx (before_channel w n))
                          = (length (ble_tx w) + edges_upto w n)%nat).
    { induction n as [|n IH]; [cbn; lia|].
      pose proof (same_outside_scan_upto n w) as (_ & _ & _ & _ & Hc & _).
      unfold before_channel in *. cbn [for_upto edges_upto].
      unfold edge_fired, before_channel.
      destruct (for_upto n scan_channel (false, w)) as [act wn].
      cbn [snd] in *.
      rewrite (proj2 (ble_tx_scan_channel n act wn)) by congruence.
      rewrite IH. lia. }
    apply G.
Qed.

Lemma scan_cycle_reports_witness :
  conn_handle w_crossing <> 0xFFFF
  /\ length (ble_tx (snd (scan_cycle w_crossing))) = 1%nat
  /\ conn_handle (boot nvs_blank crossing_signal) = 0xFFFF
  /\ ble_tx (snd (scan_cycle (boot nvs_blank crossing_signal))) = []
  /\ last_state_at (snd (scan_cycle (boot nvs_blank crossing_signal))) 0
     = true.
Proof.
  assert (Hon : conn_handle w_crossing <> 0xFFFF)
    by (vm_compute; discriminate).
  assert (Hoff : conn_handle (boot nvs_blank crossing_signal) = 0xFFFF)
    by reflexivity.
  split; [exact Hon|]. split.
  - rewrite (proj2 (scan_cycle_reports w_crossing) Hon).
    vm_compute. reflexivity.
  - split; [exact Hoff|]. split.
    + exact (proj1 (scan_cycle_reports _) Hoff).
    + vm_compute. reflexivity.
Defined.

Lemma scan_cycle_confined_witness :
  arrays_ok w_crossing
  /\ arrays_ok (snd (scan_cycle w_crossing))
  /\ onion_lut (snd (scan_cycle w_crossing)) = onion_lut w_crossing.
Proof.
  assert (Ha : arrays_ok w_crossing) by (repeat split; reflexivity).
  split; [exact Ha|].
  destruct (scan_cycle_confined w_crossing) as ((Hlut & _) & Hok).
  split; [exact (Hok Ha) | exact Hlut].
Defined.

(** ** The edge memory across a scan cycle *)

Lemma last_states_ESP_LOG (tag msg : string) (w : world) :
  last_states (ESP_LOGD tag msg w) = last_states w.
Proof. reflexivity. Qed.

Lemma last_states_send (k : Z) (p : bool) (w : world) :
  last_states (send_key_report k p w) = last_states w.
Proof.
  unfold send_key_report. destruct (conn_handle w =? 0xFFFF); reflexivity.
Qed.

(** Of all that the scan of a channel does, only the edge detection
    writes the edge memory. *)
Lemma last_states_scan_channel (c : nat) (act : bool) (w : world) :
  last_states (snd (scan_channel c (act, w)))
  = last_states (snd (onion_touch_has_changed c w)).
Proof.
  rewrite scan_channel_snd. cbn zeta.
  set (w1 := snd (onion_touch_has_changed c w)). clearbody w1.
  destruct (fst (onion_touch_has_changed c w)); [|reflexivity].
  rewrite last_states_ESP_LOG, last_states_send.
  apply last_states_read.
Qed.

Lemma last_states_before_channel (w : world) (n c : nat) :
  last_states (before_channel w n) !! c
  = if decide (c < n)%nat
    then last_states (snd (onion_touch_has_changed c (before_channel w c))) !! c
    else last_states w !! c.
Proof.
  induction n as [|n IH].
  - rewrite decide_False by lia. reflexivity.
  - assert (E : last_states (before_channel w (S n))
                = last_states (snd (onion_touch_has_changed n
                                      (before_channel w n)))).
    { unfold before_channel. cbn [for_upto].
      destruct (for_upto n scan_channel (false, w)) as [act wn].
      cbn [snd]. apply last_states_scan_channel. }
    rewrite E. destruct (decide (c = n)) as [->|Hne].
    + rewrite decide_True by lia. reflexivity.
    + rewrite has_changed_other by exact Hne. rewrite IH.
      destruct (decide (c < n)%nat), (decide (c < S n)%nat);
        try reflexivity; lia.
Qed.

Lemma last_state_at_before_channel (w : world) (n c : nat) :
  last_state_at (before_channel w n) c
  = if decide (c < n)%nat
    then last_state_at (snd (onion_touch_has_changed c (before_channel w c))) c
    else last_state_at w c.
Proof.
  unfold last_state_at. rewrite last_states_before_channel.
  destruct (decide (c < n)%nat); reflexivity.
Qed.

(** What a full cycle leaves in the edge memory of a channel, and when the
    cycle sees an edge on it. *)
Lemma last_state_after_cycle (w : world) (c : nat) :
  (c < 16)%nat ->
  length (last_states w) = 16%nat ->
  last_state_at (snd (scan_cycle w)) c
  = fst (onion_touch_read c (before_channel w c)).
Proof.
  intros Hc Hlen.
  pose proof (last_state_at_before_channel w 16 c) as He.
  rewrite decide_True in He by exact Hc.
  rewrite <- scan_cycle_snd in He.
  assert (Hl : length (last_states (before_channel w c)) = 16%nat).
  { destruct (same_outside_scan_upto c w) as (_ & _ & _ & _ & _ & _ & _ & L & _).
    rewrite L. exact Hlen. }
  set (wb := before_channel w c) in *. clearbody wb.
  set (we := snd (scan_cycle w)) in *. clearbody we.
  rewrite He. apply has_changed_records. rewrite Hl. exact Hc.
Qed.

Lemma edge_fired_first_sample (w : world) (c : nat) :
  edge_fired w c
  = negb (eqb (fst (onion_touch_read c (before_channel w c)))
              (last_state_at w c)).
Proof.
  pose proof (last_state_at_before_channel w c c) as Hb.
  rewrite decide_False in Hb by lia.
  unfold edge_fired.
  set (wb := before_channel w c) in *. clearbody wb.
  rewrite has_changed_fst, Hb. reflexivity.
Qed.

(** X14: after a full scan cycle the remembered state of every channel is
    the classification its edge detection made in that cycle (the first
    sample when the channel was sampled twice); the scans of the other
    channels do not touch it, and an edge is seen for a channel exactly when
    that classification differs from the state remembered when the cycle
    began. *)
Theorem scan_cycle_edge_memory (w : world) (c : nat) :
  (c < 16)%nat ->
  length (last_states w) = 16%nat ->
  last_state_at (snd (scan_cycle w)) c
  = fst (onion_touch_read c (before_channel w c))
  /\ last_state_at (before_channel w c) c = last_state_at w c
  /\ edge_fired w c
     = negb (eqb (fst (onion_touch_read c (before_channel w c)))
                 (last_state_at w c)).
Proof.
  intros Hc Hlen.
  pose proof (last_state_at_before_channel w c c) as Hb.
  rewrite decide_False in Hb by lia.
  pose proof (last_state_at_before_channel w 16 c) as He.
  rewrite decide_True in He by exact Hc.
  rewrite <- scan_cycle_snd in He.
  assert (Hl : length (last_states (before_channel w c)) = 16%nat).
  { destruct (same_outside_scan_upto c w) as (_ & _ & _ & _ & _ & _ & _ & L & _).
    rewrite L. exact Hlen. }
  unfold edge_fired.
  set (wb := before_channel w c) in *. clearbody wb.
  set (we := snd (scan_cycle w)) in *. clearbody we.
  split; [|split].
  - rewrite He. apply has_changed_records. rewrite Hl. exact Hc.
  - exact Hb.
  - rewrite has_changed_fst, Hb. reflexivity.
Qed.

Lemma scan_cycle_edge_memory_witness :
  (0 < 16)%nat
  /\ length (last_states w_crossing) = 16%nat
  /\ last_state_at (snd (scan_cycle w_crossing)) 0
     = fst (onion_touch_read 0 (before_channel w_crossing 0)).
Proof.
  assert (Hc : (0 < 16)%nat) by lia.
  assert (Hl : length (last_states w_crossing) = 16%nat) by reflexivity.
  split; [exact Hc|]. split; [exact Hl|].
  exact (proj1 (scan_cycle_edge_memory w_crossing 0 Hc Hl)).
Defined.

(** ** Thresholds and conversions at the edges of their ranges *)

Lemma to_uint16_range (z : Z) : 0 <= to_uint16 z < 65536.
Proof. unfold to_uint16. apply Z.mod_pos_bound. lia. Qed.

Lemma adc_raw_of_range (w : world) (c : nat) : 0 <= adc_raw_of w c < 65536.
Proof. unfold adc_raw_of, oversample. apply to_uint16_range. Qed.

(** X15: a threshold of 0 switches a channel off, whatever the ADC
    delivers: it never classifies as touched.  A threshold above the 12-bit
    range does the opposite: with conversions in 0..4095 the channel always
    classifies as touched. *)
Theorem threshold_extremes (w : world) (c : nat) :
  (c < 16)%nat ->
  (threshold (lut_at w c) = 0 -> fst (onion_touch_read c w) = false)
  /\ (4096 <= threshold (lut_at w c) ->
      (forall k, (k < 4)%nat -> 0 <= reading w c k < 4096) ->
      fst (onion_touch_read c w) = true).
Proof.
  intros Hc. rewrite onion_touch_read_eq by exact Hc. cbn [fst]. split.
  - intros ->. apply Z.ltb_ge. apply adc_raw_of_range.
  - intros Hthr Hr. apply Z.ltb_lt. unfold adc_raw_of.
    rewrite oversample_mean by (split; [apply Hr | apply Z.lt_trans with 4096;
                                        [apply Hr | reflexivity]]; lia).
    pose proof (Hr 0%nat ltac:(lia)). pose proof (Hr 1%nat ltac:(lia)).
    pose proof (Hr 2%nat ltac:(lia)). pose proof (Hr 3%nat ltac:(lia)).
    rewrite Z.quot_div_nonneg by lia.
    apply Z.lt_le_trans with 4096; [|exact Hthr].
    apply Z.div_lt_upper_bound; lia.
Qed.

Lemma threshold_extremes_witness :
  (2 < 16)%nat
  /\ threshold (lut_at (process_line "SET:2,0,4"
                          (boot nvs_blank (steady_signal 0))) 2) = 0
  /\ fst (onion_touch_read 2 (process_line "SET:2,0,4"
                                (boot nvs_blank (steady_signal 0)))) = false
  /\ 4096 <= threshold (lut_at (process_line "SET:2,65535,4"
                                  (boot nvs_blank (steady_signal 4095))) 2)
  /\ fst (onion_touch_read 2 (process_line "SET:2,65535,4"
                                (boot nvs_blank (steady_signal 4095)))) = true.
Proof.
  assert (Hc : (2 < 16)%nat) by lia.
  assert (H0 : threshold (lut_at (process_line "SET:2,0,4"
                 (boot nvs_blank (steady_signal 0))) 2) = 0)
    by (vm_compute; reflexivity).
  assert (H1 : 4096 <= threshold (lut_at (process_line "SET:2,65535,4"
                 (boot nvs_blank (steady_signal 4095))) 2))
    by (vm_compute; discriminate).
  split; [exact Hc|]. split; [exact H0|]. split.
  - exact (proj1 (threshold_extremes _ 2 Hc) H0).
  - split; [exact H1|].
    apply (proj2 (threshold_extremes _ 2 Hc) H1).
    intros k _. change (0 <= 4095 < 4096). lia.
Defined.

(** X16: whatever the four conversions return, the sample that is cached
    and compared lies in 0..65535.  In particular, when every conversion
    returns the driver's error value -1, the sum wraps, the cached sample is
    65535 and the channel classifies as released for every threshold a
    16-bit field can hold. *)
Theorem sample_is_uint16 (w : world) (c : nat) :
  (c < 16)%nat ->
  length (last_raw_values w) = 16%nat ->
  (exists v, last_raw_values (snd (onion_touch_read c w)) !! c = Some v
             /\ 0 <= v < 65536)
  /\ ((forall k, (k < 4)%nat -> reading w c k = -1) ->
      threshold (lut_at w c) < 65536 ->
      last_raw_values (snd (onion_touch_read c w)) !! c = Some 65535
      /\ fst (onion_touch_read c w) = false).
Proof.
  intros Hc Hlen. rewrite onion_touch_read_eq by exact Hc.
  cbn [fst snd last_raw_values set_last_raw_values].
  rewrite list_lookup_insert_eq by lia. split.
  - exists (adc_raw_of w c). split; [reflexivity | apply adc_raw_of_range].
  - intros Herr Hthr.
    assert (E : adc_raw_of w c = 65535).
    { unfold adc_raw_of. rewrite !Herr by lia. reflexivity. }
    rewrite E. split; [reflexivity | apply Z.ltb_ge; lia].
Qed.

Lemma sample_is_uint16_witness :
  (3 < 16)%nat
  /\ length (last_raw_values (boot nvs_blank (steady_signal (-1)))) = 16%nat
  /\ last_raw_values
       (snd (onion_touch_read 3 (boot nvs_blank (steady_signal (-1)))))
       !! 3%nat = Some 65535
  /\ fst (onion_touch_read 3 (boot nvs_blank (steady_signal (-1)))) = false.
Proof.
  assert (Hc : (3 < 16)%nat) by lia.
  assert (Hl : length (last_raw_values (boot nvs_blank (steady_signal (-1))))
               = 16%nat) by reflexivity.
  split; [exact Hc|]. split; [exact Hl|].
  apply (proj2 (sample_is_uint16 _ 3 Hc Hl)).
  - intros k _. reflexivity.
  - vm_compute. reflexivity.
Defined.

(** The select lines driven for an 8-bit address. *)
Lemma mux_address_table :
  forallb (fun a =>
             Z.eqb (Z.land (Z.shiftr a 0) 1 + 2 * Z.land (Z.shiftr a 1) 1
                    + 4 * Z.land (Z.shiftr a 2) 1
                    + 8 * Z.land (Z.shiftr a 3) 1) (a mod 16)
             && Z.leb 0 (Z.land (Z.shiftr a 0) 1)
             && Z.leb (Z.land (Z.shiftr a 0) 1) 1
             && Z.leb 0 (Z.land (Z.shiftr a 1) 1)
             && Z.leb (Z.land (Z.shiftr a 1) 1) 1
             && Z.leb 0 (Z.land (Z.shiftr a 2) 1)
             && Z.leb (Z.land (Z.shiftr a 2) 1) 1
             && Z.leb 0 (Z.land (Z.shiftr a 3) 1)
             && Z.leb (Z.land (Z.shiftr a 3) 1) 1)
          (map Z.of_nat (seq 0 256)) = true.
Proof. vm_compute. reflexivity. Qed.

(** X17: of an 8-bit address [set_mux_address] puts the four low bits on
    the select lines, so the channel routed to the ADC is the address
    modulo 16; the status LED pin is not touched. *)
Theorem mux_uses_low_four_bits (addr : Z) (w : world) :
  0 <= addr < 256 ->
  mux_selected (set_mux_address addr w) = Z.to_nat (addr mod 16)
  /\ gpio (set_mux_address addr w) !! STATUS_LED_GPIO
     = gpio w !! STATUS_LED_GPIO.
Proof.
  intros Ha.
  pose proof mux_address_table as T.
  rewrite forallb_forall in T.
  specialize (T addr).
  assert (Hin : In addr (map Z.of_nat (seq 0 256))).
  { apply in_map_iff. exists (Z.to_nat addr).
    split; [lia | apply in_seq; lia]. }
  specialize (T Hin).
  repeat (apply andb_true_iff in T; destruct T as [T ?]).
  apply Z.eqb_eq in T.
  repeat match goal with H : (_ <=? _) = true |- _ => apply Z.leb_le in H end.
  split.
  - unfold mux_selected, pin_level. rewrite gpio_set_mux_address.
    unfold MUX_S0, MUX_S1, MUX_S2, MUX_S3.
    rewrite lookup_insert_ne by lia.
    rewrite lookup_insert_ne by lia.
    rewrite lookup_insert_ne by lia.
    rewrite (lookup_insert_ne _ 22 19) by lia.
    rewrite (lookup_insert_ne _ 21 19) by lia.
    rewrite (lookup_insert_ne _ 22 21) by lia.
    rewrite !lookup_insert_eq. cbn [default].
    rewrite <- T. f_equal. unfold id.
    repeat case_decide; lia.
  - rewrite gpio_set_mux_address.
    unfold MUX_S0, MUX_S1, MUX_S2, MUX_S3, STATUS_LED_GPIO.
    rewrite !lookup_insert_ne by lia. reflexivity.
Qed.

Lemma mux_uses_low_four_bits_witness :
  0 <= 0x1B < 256
  /\ mux_selected (set_mux_address 0x1B (boot nvs_blank crossing_signal))
     = 11%nat.
Proof.
  assert (H : 0 <= 0x1B < 256) by lia.
  split; [exact H|].
  exact (proj1 (mux_uses_low_four_bits 0x1B
                  (boot nvs_blank crossing_signal) H)).
Defined.

(** ** Invariants of the running system *)

Lemma same_outside_comms_refl (w : world) : same_outside_comms w w.
Proof. repeat split. Qed.

Lemma same_outside_comms_trans (w1 w2 w3 : world) :
  same_outside_comms w1 w2 -> same_outside_comms w2 w3 ->
  same_outside_comms w1 w3.
Proof.
  intros (A1 & A2 & A3 & A4 & A5 & A6 & A7 & A8)
         (B1 & B2 & B3 & B4 & B5 & B6 & B7 & B8).
  repeat split; congruence.
Qed.

Lemma same_outside_comms_save (w : world) :
  same_outside_comms w (snd (onion_config_save w)).
Proof.
  unfold onion_config_save, nvs_open, nvs_set_blob.
  destruct (nvs_open_res (nvs w)); try apply same_outside_comms_refl;
    destruct (nvs_write_res (nvs w)); repeat split.
Qed.

Lemma same_outside_comms_set_stdout (v : string) (w : world) :
  same_outside_comms w (set_stdout v w).
Proof. repeat split. Qed.

Lemma same_outside_comms_telemetry (w : world) :
  same_outside_comms w (telemetry w).
Proof.
  destruct (is_app_connected w) eqn:E.
  - rewrite (telemetry_on w E). apply same_outside_comms_set_stdout.
  - rewrite (telemetry_off w E). apply same_outside_comms_refl.
Qed.

Lemma telemetry_lut_nvs (w : world) :
  onion_lut (telemetry w) = onion_lut w /\ nvs (telemetry w) = nvs w.
Proof.
  destruct (is_app_connected w) eqn:E.
  - rewrite (telemetry_on w E). split; reflexivity.
  - rewrite (telemetry_off w E). split; reflexivity.
Qed.

(** What a command line can do to the table and to the flash: nothing,
    unless it is a SET command that is in range. *)
Lemma process_line_lut_nvs (line : string) (w : world) :
  (onion_lut (process_line line w) = onion_lut w
   /\ nvs (process_line line w) = nvs w)
  \/ (exists ch thr key, sscanf_SET line = [ch; thr; key] /\ 0 <= ch < 16).
Proof.
  destruct (decide (line = "CONNECT")) as [->|H1].
  { left. rewrite process_line_CONNECT. split; reflexivity. }
  destruct (decide (line = "DISCONNECT")) as [->|H2].
  { left. split; reflexivity. }
  assert (U : process_line line w
              = if String.prefix "SET:" line
                then match sscanf_SET line with
                     | [_; _; _] => process_line line w
                     | _ => w
                     end
                else w).
  { unfold process_line.
    rewrite decide_False by exact H1. rewrite decide_False by exact H2.
    destruct (String.prefix "SET:" line); [|reflexivity].
    destruct (sscanf_SET line) as [|a [|b [|c [|d l]]]]; reflexivity. }
  destruct (String.prefix "SET:" line) eqn:Hp.
  2:{ left. rewrite U. split; reflexivity. }
  destruct (sscanf_SET line) as [|ch [|thr [|key [|x l]]]] eqn:Hs;
    try (left; rewrite U; split; reflexivity).
  destruct (decide (0 <= ch < 16)) as [Hr|Hr].
  - right. exists ch, thr, key. split; [reflexivity | exact Hr].
  - left. rewrite (process_line_SET _ _ _ _ _ Hs).
    replace ((0 <=? ch) && (ch <? 16)) with false; [split; reflexivity|].
    symmetry. apply andb_false_iff.
    destruct (Z.leb_spec 0 ch); [right; apply Z.ltb_ge; lia | left; reflexivity].
Qed.

Lemma same_outside_comms_process_line (line : string) (w : world) :
  same_outside_comms w (process_line line w).
Proof.
  unfold process_line.
  destruct (decide (line = "CONNECT")).
  { apply (for_upto_invariant (fun x => same_outside_comms w x)).
    - repeat split.
    - intros i x Hx. apply (same_outside_comms_trans _ _ _ Hx).
      repeat split. }
  destruct (decide (line = "DISCONNECT")); [repeat split|].
  destruct (String.prefix "SET:" line); [|apply same_outside_comms_refl].
  destruct (sscanf_SET line) as [|ch [|thr [|key [|]]]];
    try apply same_outside_comms_refl.
  destruct ((0 <=? ch) && (ch <? 16)); [|apply same_outside_comms_refl].
  eapply same_outside_comms_trans; [|apply same_outside_comms_save].
  repeat split.
Qed.

(** The world after one pass of the serial task: the telemetry step, run
    after at most one command. *)
Lemma comms_pass_world (c : option ascii) (buf : string) (w : world) :
  snd (onion_comms_pass c (buf, w)) = telemetry w
  \/ snd (onion_comms_pass c (buf, w))
     = telemetry (process_line (c_str buf) w).
Proof.
  unfold onion_comms_pass. destruct c as [c|]; [|left; reflexivity].
  destruct (bool_decide (c = LF) || bool_decide (c = CR)
            || (127 <=? String.length buf)%nat); [|left; reflexivity].
  destruct (0 <? String.length buf)%nat; [right | left]; reflexivity.
Qed.

Lemma same_outside_comms_pass (c : option ascii) (buf : string) (w : world) :
  same_outside_comms w (snd (onion_comms_pass c (buf, w))).
Proof.
  destruct (comms_pass_world c buf w) as [-> | ->].
  - apply same_outside_comms_telemetry.
  - eapply same_outside_comms_trans;
      [apply same_outside_comms_process_line
      | apply same_outside_comms_telemetry].
Qed.

(** X18: the serial task is confined to the console side.  Whatever
    arrives on the console, a run of the task never writes the edge
    memory, the sample cache, the connection or report handle, the GPIO
    pins, the ADC or the queue of BLE notifications. *)
Theorem comms_confined (input : list (option ascii)) (buf : string)
    (w : world) :
  same_outside_comms w (snd (onion_comms_run input (buf, w))).
Proof.
  revert buf w. induction input as [|c input IH]; intros buf w.
  - apply same_outside_comms_refl.
  - cbn [onion_comms_run fold_left].
    pose proof (same_outside_comms_pass c buf w) as H.
    destruct (onion_comms_pass c (buf, w)) as [buf1 w1]. cbn [snd] in H.
    apply (same_outside_comms_trans _ _ _ H).
    apply IH.
Qed.

(** The scan path and the sample cache, the select lines and the LED. *)
Lemma gpio_set_adc_reads (n : nat) (w : world) :
  gpio (set_adc_reads n w) = gpio w.
Proof. reflexivity. Qed.

Lemma gpio_set_last_raw_values (v : list Z) (w : world) :
  gpio (set_last_raw_values v w) = gpio w.
Proof. reflexivity. Qed.

Lemma gpio_set_last_states (v : list bool) (w : world) :
  gpio (set_last_states v w) = gpio w.
Proof. reflexivity. Qed.

Lemma last_raw_values_set_last_states (v : list bool) (w : world) :
  last_raw_values (set_last_states v w) = last_raw_values w.
Proof. reflexivity. Qed.

Lemma pin_level_set_last_states (v : list bool) (w : world) (pin : Z) :
  pin_level (set_last_states v w) pin = pin_level w pin.
Proof. reflexivity. Qed.

Lemma pin_level_gpio (w w' : world) (pin : Z) :
  gpio w' = gpio w -> pin_level w' pin = pin_level w pin.
Proof. unfold pin_level. intros ->. reflexivity. Qed.

Lemma pin_level_lookup (w w' : world) (pin : Z) :
  gpio w' !! pin = gpio w !! pin -> pin_level w' pin = pin_level w pin.
Proof. unfold pin_level. intros ->. reflexivity. Qed.

Lemma led_set_mux_address (addr : Z) (w : world) :
  gpio (set_mux_address addr w) !! STATUS_LED_GPIO = gpio w !! STATUS_LED_GPIO.
Proof.
  rewrite gpio_set_mux_address.
  unfold MUX_S0, MUX_S1, MUX_S2, MUX_S3, STATUS_LED_GPIO.
  rewrite !lookup_insert_ne by lia. reflexivity.
Qed.

Lemma read_cache_and_led (c : nat) (w : world) :
  (c < 16)%nat ->
  last_raw_values (snd (onion_touch_read c w))
  = <[c := adc_raw_of w c]> (last_raw_values w)
  /\ gpio (snd (onion_touch_read c w)) !! STATUS_LED_GPIO
     = gpio w !! STATUS_LED_GPIO.
Proof.
  intros Hc. rewrite onion_touch_read_eq by exact Hc. cbn [snd]. split.
  - reflexivity.
  - rewrite gpio_set_last_raw_values, gpio_set_adc_reads.
    apply led_set_mux_address.
Qed.

(** What holds of the sample cache and of the LED pin is kept by a read. *)
Lemma read_keeps_cache_range_and_led (c : nat) (w : world) :
  (c < 16)%nat ->
  Forall (fun v => 0 <= v < 65536) (last_raw_values w) ->
  Forall (fun v => 0 <= v < 65536) (last_raw_values (snd (onion_touch_read c w)))
  /\ pin_level (snd (onion_touch_read c w)) STATUS_LED_GPIO
     = pin_level w STATUS_LED_GPIO.
Proof.
  intros Hc Hraw. destruct (read_cache_and_led c w Hc) as [E G]. split.
  - rewrite E. apply Forall_insert; [exact Hraw | apply adc_raw_of_range].
  - apply pin_level_lookup. exact G.
Qed.

Lemma has_changed_keeps_cache_range_and_led (c : nat) (w : world) :
  (c < 16)%nat ->
  Forall (fun v => 0 <= v < 65536) (last_raw_values w) ->
  Forall (fun v => 0 <= v < 65536)
    (last_raw_values (snd (onion_touch_has_changed c w)))
  /\ pin_level (snd (onion_touch_has_changed c w)) STATUS_LED_GPIO
     = pin_level w STATUS_LED_GPIO.
Proof.
  intros Hc Hraw. rewrite has_changed_snd.
  pose proof (read_keeps_cache_range_and_led c w Hc Hraw) as H.
  set (w1 := snd (onion_touch_read c w)) in *. clearbody w1.
  destruct (negb _); [|exact H].
  rewrite last_raw_values_set_last_states, pin_level_set_last_states.
  exact H.
Qed.

Lemma send_log_keeps_cache_and_gpio (msg : string) (k : Z) (p : bool)
    (w : world) :
  last_raw_values (ESP_LOGD TAG_MAIN msg (send_key_report k p w)) = last_raw_values w
  /\ gpio (ESP_LOGD TAG_MAIN msg (send_key_report k p w)) = gpio w.
Proof.
  unfold send_key_report. destruct (conn_handle w =? 0xFFFF);
    split; reflexivity.
Qed.

Lemma scan_channel_keeps_cache_range_and_led (c : nat) (act : bool)
    (w : world) :
  (c < 16)%nat ->
  Forall (fun v => 0 <= v < 65536) (last_raw_values w) ->
  Forall (fun v => 0 <= v < 65536)
    (last_raw_values (snd (scan_channel c (act, w))))
  /\ pin_level (snd (scan_channel c (act, w))) STATUS_LED_GPIO
     = pin_level w STATUS_LED_GPIO.
Proof.
  intros Hc Hraw. rewrite scan_channel_snd. cbn zeta.
  pose proof (has_changed_keeps_cache_range_and_led c w Hc Hraw) as [H1 L1].
  set (w1 := snd (onion_touch_has_changed c w)) in *. clearbody w1.
  destruct (fst (onion_touch_has_changed c w)); [|split; assumption].
  pose proof (read_keeps_cache_range_and_led c w1 Hc H1) as [H2 L2].
  set (p := fst (onion_touch_read c w1)). clearbody p.
  set (w2 := snd (onion_touch_read c w1)) in *. clearbody w2.
  destruct (send_log_keeps_cache_and_gpio
              ("Channel " +:+ pretty (Z.of_nat c) +:+ ": "
               +:+ (if p then "Pressed" else "Released"))
              (keycode (lut_at w2 c)) p w2) as [E G].
  rewrite E, (pin_level_gpio _ _ _ G). split; [exact H2 | congruence].
Qed.

(** The table after a command line: still 16 records within range. *)
Lemma process_line_keeps_table_shape (line : string) (w : world) :
  length (onion_lut w) = 16%nat ->
  Forall key_in_range (onion_lut w) ->
  length (onion_lut (process_line line w)) = 16%nat
  /\ Forall key_in_range (onion_lut (process_line line w)).
Proof.
  intros Hlen Hr.
  destruct (process_line_lut_nvs line w)
    as [[E _] | (ch & thr & key & Hs & Hc)].
  - rewrite E. split; assumption.
  - rewrite (onion_lut_process_SET _ _ _ _ _ Hs Hc Hlen). split.
    + rewrite length_insert. exact Hlen.
    + apply Forall_insert; [exact Hr|].
      split; cbn [keycode threshold].
      * unfold to_uint8. apply Z.mod_pos_bound. lia.
      * apply to_uint16_range.
Qed.

(** The table with which the loop is entered. *)
Lemma onion_config_init_lut (w : world) :
  onion_lut (snd (onion_config_init w)) = onion_lut w
  \/ (exists b, nvs_entries (nvs w) !! NVS_KEY_LUT = Some b
                /\ (length b <= 16)%nat
                /\ onion_lut (snd (onion_config_init w))
                   = blob_into b (onion_lut w)).
Proof.
  unfold onion_config_init, nvs_open, nvs_get_blob.
  destruct (nvs_open_res (nvs w)); try (left; reflexivity).
  destruct (nvs_read_res (nvs w)); try (left; reflexivity);
    try (left; cbn [snd]; exact (proj1 (proj2 (onion_config_save_frame _)))).
  destruct (nvs_entries (nvs w) !! NVS_KEY_LUT) as [b|] eqn:Eb.
  - destruct (decide (length b <= 16)%nat) as [Hl|Hl].
    + right. exists b. split; [reflexivity|]. split; [exact Hl|]. reflexivity.
    + left. reflexivity.
  - left. cbn [snd].
    exact (proj1 (proj2 (onion_config_save_frame _))).
Qed.

Lemma onion_config_init_boot_side (w : world) :
  last_states (snd (onion_config_init w)) = last_states w
  /\ last_raw_values (snd (onion_config_init w)) = last_raw_values w
  /\ conn_handle (snd (onion_config_init w)) = conn_handle w
  /\ gpio (snd (onion_config_init w)) = gpio w.
Proof.
  unfold onion_config_init.
  destruct (nvs_open (nvs w)); try (repeat split; reflexivity).
  destruct (nvs_get_blob NVS_KEY_LUT 16 (nvs w)) as [err out].
  destruct out as [b|], err; try (repeat split; reflexivity); cbn [snd];
    match goal with
    | |- context [onion_config_save ?x] =>
        destruct (same_outside_comms_save x) as (A & B & C & _ & D & _);
        rewrite A, B, C, D; repeat split
    end.
Qed.

Lemma default_lut_in_range : Forall key_in_range default_lut.
Proof.
  unfold default_lut. cbn [map].
  repeat (constructor; [unfold key_in_range, DEFAULT_THRESHOLD; cbn; lia|]).
  constructor.
Qed.

Lemma sys_inv_started (n : nvs_t) (sig : nat -> nat -> Z) :
  flash_in_range n -> sys_inv (started n sig).
Proof.
  intros Hf. unfold sys_inv, started. cbn [fst snd].
  destruct (onion_config_init_boot_side (boot n sig)) as (A & B & C & D).
  assert (L : length (onion_lut (snd (onion_config_init (boot n sig)))) = 16%nat
              /\ Forall key_in_range
                   (onion_lut (snd (onion_config_init (boot n sig))))).
  { destruct (onion_config_init_lut (boot n sig))
      as [E | (b & Hb & Hl & E)]; rewrite E.
    - split; [reflexivity | exact default_lut_in_range].
    - change (onion_lut (boot n sig)) with default_lut. split.
      + apply blob_into_length. exact Hl.
      + unfold blob_into. apply Forall_app. split; [exact (Hf b Hb)|].
        apply Forall_drop. exact default_lut_in_range. }
  destruct L as [L1 L2].
  set (w0 := snd (onion_config_init (boot n sig))) in *. clearbody w0.
  split; [cbn; lia|]. split.
  { unfold arrays_ok. rewrite A, B. repeat split. exact L1. }
  split; [exact L2|]. split.
  { rewrite B. cbn [last_raw_values boot replicate].
    repeat (constructor; [lia|]). constructor. }
  rewrite C, (pin_level_gpio _ _ _ D). split; reflexivity.
Qed.

(** What a GAP event does: it moves the connection handle and the status
    LED together, and nothing else of the firmware's data. *)
Lemma ble_gap_event_effect (g : ble_gap_event_t) (w : world) :
  let w' := ble_gap_event g w in
  last_states w' = last_states w
  /\ onion_lut w' = onion_lut w
  /\ last_raw_values w' = last_raw_values w
  /\ nvs w' = nvs w
  /\ match g with
     | BLE_GAP_EVENT_CONNECT status handle =>
         if status =? 0
         then conn_handle w' = handle /\ pin_level w' STATUS_LED_GPIO = 1
         else w' = w
     | BLE_GAP_EVENT_DISCONNECT =>
         conn_handle w' = 0xFFFF /\ pin_level w' STATUS_LED_GPIO = 0
     end.
Proof.
  destruct g as [status handle|]; cbn [ble_gap_event].
  - destruct (status =? 0).
    + repeat split. unfold pin_level, gpio_set_level. cbn [gpio set_gpio].
      rewrite lookup_insert_eq. reflexivity.
    + repeat split.
  - repeat split. unfold pin_level, gpio_set_level. cbn [gpio set_gpio].
    rewrite lookup_insert_eq. reflexivity.
Qed.

Lemma sys_inv_intro (buf : string) (w : world) :
  (String.length buf <= 127)%nat ->
  length (last_states w) = 16%nat ->
  length (onion_lut w) = 16%nat ->
  length (last_raw_values w) = 16%nat ->
  Forall key_in_range (onion_lut w) ->
  Forall (fun v => 0 <= v < 65536) (last_raw_values w) ->
  (conn_handle w = 0xFFFF <-> pin_level w STATUS_LED_GPIO = 0) ->
  sys_inv (buf, w).
Proof. intros. repeat split; assumption || tauto. Qed.

Lemma sys_inv_elim (buf : string) (w : world) :
  sys_inv (buf, w) ->
  (String.length buf <= 127)%nat
  /\ length (last_states w) = 16%nat
  /\ length (onion_lut w) = 16%nat
  /\ length (last_raw_values w) = 16%nat
  /\ Forall key_in_range (onion_lut w)
  /\ Forall (fun v => 0 <= v < 65536) (last_raw_values w)
  /\ (conn_handle w = 0xFFFF <-> pin_level w STATUS_LED_GPIO = 0).
Proof. intros (A & (B & C & D) & E & F & G). repeat split; assumption || tauto. Qed.

Lemma led_follows (w w' : world) :
  conn_handle w' = conn_handle w ->
  pin_level w' STATUS_LED_GPIO = pin_level w STATUS_LED_GPIO ->
  (conn_handle w = 0xFFFF <-> pin_level w STATUS_LED_GPIO = 0) ->
  (conn_handle w' = 0xFFFF <-> pin_level w' STATUS_LED_GPIO = 0).
Proof. intros -> ->. tauto. Qed.

Lemma sys_inv_scan (c : nat) (buf : string) (w : world) :
  (c < 16)%nat -> sys_inv (buf, w) ->
  sys_inv (buf, snd (scan_channel c (false, w))).
Proof.
  intros Hv Hst.
  destruct (sys_inv_elim buf w Hst) as (Hb & Hls & Hlut & Hraw & Hr & Hc & Hled).
  destruct (same_outside_scan_channel c false w)
    as (E1 & _ & _ & _ & E5 & _ & _ & E8 & E9).
  destruct (scan_channel_keeps_cache_range_and_led c false w Hv Hc)
    as [R L].
  apply sys_inv_intro.
  - exact Hb.
  - rewrite E8. exact Hls.
  - rewrite E1. exact Hlut.
  - rewrite E9. exact Hraw.
  - rewrite E1. exact Hr.
  - exact R.
  - exact (led_follows _ _ E5 L Hled).
Qed.

Lemma sys_inv_comms (c : option ascii) (st : string * world) :
  sys_inv st -> sys_inv (onion_comms_pass c st).
Proof.
  destruct st as [buf w]. intros Hst.
  destruct (sys_inv_elim buf w Hst) as (Hb & Hls & Hlut & Hraw & Hr & Hc & Hled).
  pose proof (comms_pass_bound c buf w Hb) as Hb'.
  destruct (same_outside_comms_pass c buf w)
    as (A & B & C & _ & D & _).
  assert (T : length (onion_lut (snd (onion_comms_pass c (buf, w)))) = 16%nat
              /\ Forall key_in_range
                   (onion_lut (snd (onion_comms_pass c (buf, w))))).
  { destruct (comms_pass_world c buf w) as [-> | ->];
      rewrite (proj1 (telemetry_lut_nvs _)).
    - split; assumption.
    - apply process_line_keeps_table_shape; assumption. }
  destruct T as [T1 T2].
  revert Hb' A B C D T1 T2.
  generalize (onion_comms_pass c (buf, w)). intros [buf' w'].
  cbn [fst snd]. intros Hb' A B C D T1 T2.
  apply sys_inv_intro.
  - exact Hb'.
  - rewrite A. exact Hls.
  - exact T1.
  - rewrite B. exact Hraw.
  - exact T2.
  - rewrite B. exact Hc.
  - exact (led_follows _ _ C (pin_level_gpio _ _ _ D) Hled).
Qed.

Lemma sys_inv_gap (g : ble_gap_event_t) (buf : string) (w : world) :
  valid_event (EvGap g) -> sys_inv (buf, w) ->
  sys_inv (buf, ble_gap_event g w).
Proof.
  intros Hv Hst.
  destruct (sys_inv_elim buf w Hst) as (Hb & Hls & Hlut & Hraw & Hr & Hc & Hled).
  pose proof (ble_gap_event_effect g w) as G. cbn zeta in G.
  revert G. generalize (ble_gap_event g w). intros w' (A & B & C & _ & G).
  apply sys_inv_intro.
  - exact Hb.
  - rewrite A. exact Hls.
  - rewrite B. exact Hlut.
  - rewrite C. exact Hraw.
  - rewrite B. exact Hr.
  - rewrite C. exact Hc.
  - destruct g as [status handle|]; cbn [valid_event] in Hv.
    + destruct (status =? 0).
      * destruct G as [G1 G2]. rewrite G1, G2. split; intros X.
        -- contradiction.
        -- discriminate X.
      * rewrite G. exact Hled.
    + destruct G as [G1 G2]. rewrite G1, G2. split; reflexivity.
Qed.

Lemma sys_inv_step (e : sys_event) (st : string * world) :
  valid_event e -> sys_inv st -> sys_inv (sys_step e st).
Proof.
  destruct st as [buf w]. intros Hv Hst.
  destruct e as [c | c | g].
  - exact (sys_inv_scan c buf w Hv Hst).
  - exact (sys_inv_comms c (buf, w) Hst).
  - exact (sys_inv_gap g buf w Hv Hst).
Qed.

(** X19: from the moment [app_main] enters its loop, and however scanned
    channels, passes of the serial task and connection events follow one
    another, the three arrays keep their 16 slots, every record of the table
    stays within the range of its fields, every cached sample stays within
    0..65535, the line buffer never exceeds 127 bytes, and the status LED
    is off exactly when no central is connected. *)
Theorem system_invariant (n : nvs_t) (sig : nat -> nat -> Z)
    (evs : list sys_event) :
  flash_in_range n ->
  Forall valid_event evs ->
  sys_inv (sys_run evs (started n sig)).
Proof.
  intros Hf Hv.
  assert (G : forall st, sys_inv st -> sys_inv (sys_run evs st)).
  { induction Hv as [|e evs He Hv IH]; intros st Hst.
    - exact Hst.
    - cbn [sys_run fold_left]. apply IH. apply sys_inv_step; assumption. }
  apply G. apply sys_inv_started. exact Hf.
Qed.

Lemma system_invariant_witness :
  flash_in_range nvs_blank
  /\ Forall valid_event
       [EvGap (BLE_GAP_EVENT_CONNECT 0 1); EvScanChannel 0;
        EvComms (Some "S"%char); EvComms (Some LF); EvScanChannel 1;
        EvGap BLE_GAP_EVENT_DISCONNECT]
  /\ sys_inv (sys_run
                [EvGap (BLE_GAP_EVENT_CONNECT 0 1); EvScanChannel 0;
                 EvComms (Some "S"%char); EvComms (Some LF); EvScanChannel 1;
                 EvGap BLE_GAP_EVENT_DISCONNECT]
                (started nvs_blank crossing_signal)).
Proof.
  assert (Hf : flash_in_range nvs_blank).
  { intros b Hb. vm_compute in Hb. discriminate Hb. }
  assert (Hv : Forall valid_event
                 [EvGap (BLE_GAP_EVENT_CONNECT 0 1); EvScanChannel 0;
                  EvComms (Some "S"%char); EvComms (Some LF); EvScanChannel 1;
                  EvGap BLE_GAP_EVENT_DISCONNECT]).
  { repeat constructor; cbn; lia. }
  split; [exact Hf|]. split; [exact Hv|].
  exact (system_invariant nvs_blank crossing_signal _ Hf Hv).
Defined.

(** The flash holds the table that is in memory. *)
Lemma write_through_started (n : nvs_t) (sig : nat -> nat -> Z) :
  healthy n ->
  (nvs_entries n !! NVS_KEY_LUT = None
   \/ exists b, nvs_entries n !! NVS_KEY_LUT = Some b /\ length b = 16%nat) ->
  healthy (nvs (snd (started n sig)))
  /\ nvs_entries (nvs (snd (started n sig))) !! NVS_KEY_LUT
     = Some (onion_lut (snd (started n sig))).
Proof.
  intros Hh Hflash. unfold started. cbn [snd].
  destruct Hflash as [Hnone | (b & Hb & Hl)].
  - rewrite onion_config_init_not_found.
    + cbn [snd].
      set (w0 := ESP_LOGI TAG_CONFIG
                   "Factory reset: No stored config. Provisioning NVS..."
                   (boot n sig)).
      assert (H0 : healthy (nvs w0)) by exact Hh.
      clearbody w0.
      destruct (onion_config_save_healthy w0 H0) as (_ & Hh' & He).
      split; [exact Hh'|].
      rewrite He, (proj1 (proj2 (onion_config_save_frame w0))).
      apply lookup_insert_eq.
    + exact (proj1 Hh).
    + unfold nvs_get_blob. change (nvs (boot n sig)) with n.
      rewrite (proj1 (proj2 Hh)), Hnone. reflexivity.
  - rewrite (onion_config_init_found (boot n sig) b Hh Hb Hl eq_refl).
    cbn [snd]. split; [exact Hh | exact Hb].
Qed.

Lemma fst_pair {A B : Type} (a : A) (b : B) : fst (a, b) = a.
Proof. reflexivity. Qed.

Lemma snd_pair {A B : Type} (a : A) (b : B) : snd (a, b) = b.
Proof. reflexivity. Qed.

Lemma write_through_step (e : sys_event) (st : string * world) :
  healthy (nvs (snd st))
  /\ nvs_entries (nvs (snd st)) !! NVS_KEY_LUT = Some (onion_lut (snd st)) ->
  healthy (nvs (snd (sys_step e st)))
  /\ nvs_entries (nvs (snd (sys_step e st))) !! NVS_KEY_LUT
     = Some (onion_lut (snd (sys_step e st))).
Proof.
  destruct st as [buf w]. rewrite !snd_pair. intros [Hh He].
  destruct e as [c | c | g]; unfold sys_step; rewrite ?snd_pair, ?fst_pair.
  - destruct (same_outside_scan_channel c false w) as (E1 & E2 & _).
    rewrite E1, E2. split; assumption.
  - destruct (comms_pass_world c buf w) as [-> | ->];
      destruct (telemetry_lut_nvs w) as [T1 T2];
      try (rewrite T1, T2; split; assumption).
    destruct (telemetry_lut_nvs (process_line (c_str buf) w)) as [U1 U2].
    rewrite U1, U2.
    destruct (process_line_lut_nvs (c_str buf) w)
      as [[P1 P2] | (ch & thr & key & Hs & Hr)].
    + rewrite P1, P2. split; assumption.
    + rewrite (process_line_SET_in_range _ _ _ _ _ Hs Hr).
      assert (Hws : healthy (nvs (set_lut_keycode (Z.to_nat ch) (to_uint8 key)
                      (set_lut_threshold (Z.to_nat ch) (to_uint16 thr) w))))
        by exact Hh.
      revert Hws.
      generalize (set_lut_keycode (Z.to_nat ch) (to_uint8 key)
                    (set_lut_threshold (Z.to_nat ch) (to_uint16 thr) w)).
      intros ws Hws.
      destruct (save_files_table ws Hws) as (W1 & W2).
      split; assumption.
  - destruct (ble_gap_event_effect g w) as (_ & B & _ & N & _).
    rewrite B, N. split; assumption.
Qed.

(** X20: on a store that answers [ESP_OK] and that is blank or holds a
    table of 16 records at boot, the flash mirrors the memory at every
    moment of the run: after any sequence of scanned channels, passes of the
    serial task and connection events, the blob filed under the storage key
    is exactly the table in memory, so a restart never loses a setting. *)
Theorem flash_mirrors_table (n : nvs_t) (sig : nat -> nat -> Z)
    (evs : list sys_event) :
  healthy n ->
  (nvs_entries n !! NVS_KEY_LUT = None
   \/ exists b, nvs_entries n !! NVS_KEY_LUT = Some b /\ length b = 16%nat) ->
  healthy (nvs (snd (sys_run evs (started n sig))))
  /\ nvs_entries (nvs (snd (sys_run evs (started n sig)))) !! NVS_KEY_LUT
     = Some (onion_lut (snd (sys_run evs (started n sig)))).
Proof.
  intros Hh Hflash.
  pose proof (write_through_started n sig Hh Hflash) as H0.
  revert H0. generalize (started n sig). clear.
  induction evs as [|e evs IH]; intros st Hst.
  - exact Hst.
  - cbn [sys_run fold_left]. apply IH. apply write_through_step. exact Hst.
Qed.

Lemma flash_mirrors_table_witness :
  healthy nvs_blank
  /\ nvs_entries nvs_blank !! NVS_KEY_LUT = None
  /\ nvs_entries
       (nvs (snd (sys_run
                    (map EvComms (line_bytes "SET:5,1000,4")
                     ++ [EvScanChannel 0])
                    (started nvs_blank crossing_signal)))) !! NVS_KEY_LUT
     = Some (onion_lut
               (snd (sys_run
                       (map EvComms (line_bytes "SET:5,1000,4")
                        ++ [EvScanChannel 0])
                       (started nvs_blank crossing_signal)))).
Proof.
  assert (Hh : healthy nvs_blank) by (repeat split; reflexivity).
  assert (Hn : nvs_entries nvs_blank !! NVS_KEY_LUT = None) by reflexivity.
  split; [exact Hh|]. split; [exact Hn|].
  exact (proj2 (flash_mirrors_table nvs_blank crossing_signal _ Hh
                  (or_introl Hn))).
Defined.

(** ** Printing a record and reading it back *)

Lemma pretty_N_char_digit (m : N) :
  (m < 10)%N ->
  isdigit (pretty_N_char m) = true
  /\ digit_value (pretty_N_char m) = Z.of_N m.
Proof.
  intros H.
  assert (m = 0 \/ m = 1 \/ m = 2 \/ m = 3 \/ m = 4 \/ m = 5 \/ m = 6
          \/ m = 7 \/ m = 8 \/ m = 9)%N as D by lia.
  repeat (destruct D as [-> | D]; [split; reflexivity|]).
  subst m. split; reflexivity.
Qed.

(** Reading the digits that [pretty_N_go] has put in front of a string. *)
Lemma take_digits_pretty_N_go (x : N) :
  exists k : Z, 0 <= k /\ forall (s : string) (acc : Z),
    take_digits (pretty_N_go x s) acc
    = take_digits s (acc * 10 ^ k + Z.of_N x).
Proof.
  induction (N.lt_wf_0 x) as [x _ IH].
  destruct (N.eq_dec x 0%N) as [-> | Hx].
  - exists 0. split; [lia|]. intros s acc. rewrite pretty_N_go_0.
    f_equal. lia.
  - destruct (IH (x `div` 10)%N) as (k & Hk & E).
    { apply N.div_lt; lia. }
    exists (k + 1). split; [lia|]. intros s acc.
    rewrite pretty_N_go_step by lia. rewrite E.
    destruct (pretty_N_char_digit (x `mod` 10)%N) as [Hd Hv].
    { apply N.mod_lt. discriminate. }
    cbn [take_digits]. rewrite Hd, Hv. f_equal.
    rewrite Z.pow_add_r by lia.
    pose proof (N.div_mod x 10 ltac:(lia)) as Hdm.
    assert (Z.of_N x = 10 * Z.of_N (x `div` 10) + Z.of_N (x `mod` 10)) by lia.
    lia.
Qed.

Lemma pretty_N_go_append (x : N) (s r : string) :
  pretty_N_go x s +:+ r = pretty_N_go x (s +:+ r).
Proof.
  revert s. induction (N.lt_wf_0 x) as [x _ IH]. intros s.
  destruct (N.eq_dec x 0%N) as [-> | Hx].
  - rewrite !pretty_N_go_0. reflexivity.
  - rewrite (pretty_N_go_step x s), (pretty_N_go_step x (s +:+ r)) by lia.
    rewrite IH by (apply N.div_lt; lia). rewrite append_cons. reflexivity.
Qed.

Lemma pretty_N_go_head (x : N) (s : string) :
  (0 < x)%N ->
  exists (m : N) (r : string),
    (m < 10)%N /\ pretty_N_go x s = String (pretty_N_char m) r.
Proof.
  revert s. induction (N.lt_wf_0 x) as [x _ IH]. intros s Hx.
  rewrite pretty_N_go_step by exact Hx.
  destruct (N.eq_dec (x `div` 10)%N 0%N) as [E | E].
  - rewrite E, pretty_N_go_0. exists (x `mod` 10)%N, s.
    split; [apply N.mod_lt; discriminate | reflexivity].
  - apply IH; [apply N.div_lt; lia | apply N.neq_0_lt_0; exact E].
Qed.

Lemma scan_d_digit (m : N) (r : string) :
  (m < 10)%N ->
  scan_d (String (pretty_N_char m) r)
  = Some (strtol_clamp (fst (take_digits (String (pretty_N_char m) r) 0)),
          snd (take_digits (String (pretty_N_char m) r) 0)).
Proof.
  intros H.
  assert (m = 0 \/ m = 1 \/ m = 2 \/ m = 3 \/ m = 4 \/ m = 5 \/ m = 6
          \/ m = 7 \/ m = 8 \/ m = 9)%N as D by lia.
  assert (G : forall c, isspace c = false -> c <> "-"%char -> c <> "+"%char ->
              isdigit c = true ->
              scan_d (String c r)
              = Some (strtol_clamp (fst (take_digits (String c r) 0)),
                      snd (take_digits (String c r) 0))).
  { intros c Hsp Hm Hp Hd. unfold scan_d. cbn [skip_space]. rewrite Hsp.
    assert (E : match String c r with
                | String "-"%char rest => (true, rest)
                | String "+"%char rest => (false, rest)
                | _ => (false, String c r)
                end = (false, String c r)).
    { destruct c as [[] [] [] [] [] [] [] []]; try reflexivity;
        congruence. }
    rewrite E. rewrite Hd.
    destruct (take_digits (String c r) 0). reflexivity. }
  repeat (destruct D as [-> | D];
          [apply G; [reflexivity | discriminate | discriminate | reflexivity]|]).
  subst m. apply G; [reflexivity | discriminate | discriminate | reflexivity].
Qed.

Lemma take_digits_stop (rest : string) (v : Z) :
  ends_number rest -> take_digits rest v = (v, rest).
Proof. intros [-> | (r & ->)]; reflexivity. Qed.

(** [%d] reads back what [%d] has printed, for a non-negative [int]. *)
Lemma scan_d_pretty (z : Z) (rest : string) :
  0 <= z <= INT_MAX ->
  ends_number rest ->
  scan_d (pretty z +:+ rest) = Some (z, rest).
Proof.
  intros Hz Hrest.
  assert (Hclamp : strtol_clamp z = z).
  { unfold strtol_clamp, INT_MIN, INT_MAX in *. lia. }
  destruct z as [|p|p]; [| |lia].
  - change (pretty 0 +:+ rest) with (String (pretty_N_char 0%N) rest).
    rewrite (scan_d_digit 0%N rest) by lia.
    change (take_digits (String (pretty_N_char 0%N) rest) 0)
      with (take_digits rest 0).
    rewrite take_digits_stop by exact Hrest. reflexivity.
  - change (pretty (Z.pos p)) with (pretty_N_go (N.pos p) "").
    rewrite pretty_N_go_append. change ("" +:+ rest) with rest.
    destruct (pretty_N_go_head (N.pos p) rest) as (m & r & Hm & E); [lia|].
    destruct (take_digits_pretty_N_go (N.pos p)) as (k & _ & T).
    pose proof (T rest 0) as T0.
    rewrite (take_digits_stop rest _ Hrest) in T0.
    rewrite E in T0 |- *. rewrite scan_d_digit by exact Hm.
    rewrite T0. cbn [fst snd].
    replace (0 * 10 ^ k + Z.of_N (N.pos p)) with (Z.pos p) by lia.
    rewrite Hclamp. reflexivity.
Qed.

Lemma scan_lit_prefix (lit rest : string) :
  scan_lit lit (lit +:+ rest) = Some rest.
Proof.
  induction lit as [|a lit IH]; [reflexivity|].
  rewrite append_cons. cbn [scan_lit].
  rewrite decide_True by reflexivity. exact IH.
Qed.

(** X21: a SET line printed with the three numbers in decimal reads back
    as these three numbers, for non-negative [int] values.  Hence the dump
    printed on CONNECT can be replayed: sending, for a channel, the SET line
    that carries the numbers of its CFG line gives the channel the keycode
    and threshold that the dump showed. *)
Theorem set_line_reads_back (ch thr key : Z) :
  0 <= ch <= INT_MAX -> 0 <= thr <= INT_MAX -> 0 <= key <= INT_MAX ->
  sscanf_SET (set_line ch thr key) = [ch; thr; key]
  /\ (forall (w w' : world) (i : nat),
        (i < 16)%nat ->
        ch = Z.of_nat i ->
        thr = threshold (lut_at w i) ->
        key = keycode (lut_at w i) ->
        key_in_range (lut_at w i) ->
        length (onion_lut w') = 16%nat ->
        cfg_line w i
        = "CFG:" +:+ (pretty ch +:+ "," +:+ pretty thr +:+ "," +:+ pretty key)
          +:+ String LF ""
        /\ key_pair (lut_at (process_line (set_line ch thr key) w') i)
           = key_pair (lut_at w i)).
Proof.
  intros Hch Hthr Hkey.
  assert (S : sscanf_SET (set_line ch thr key) = [ch; thr; key]).
  { unfold sscanf_SET, set_line.
    rewrite scan_lit_prefix.
    rewrite scan_d_pretty by (exact Hch || right; eexists; reflexivity).
    rewrite (scan_lit_prefix ",").
    rewrite scan_d_pretty by (exact Hthr || right; eexists; reflexivity).
    rewrite (scan_lit_prefix ",").
    rewrite <- (append_nil_r (pretty key)).
    rewrite scan_d_pretty by (exact Hkey || left; reflexivity).
    reflexivity. }
  split; [exact S|].
  intros w w' i Hi -> -> -> (Hk & Ht) Hlen. split.
  - unfold cfg_line. rewrite !append_assoc. reflexivity.
  - assert (R : 0 <= Z.of_nat i < 16) by lia.
    pose proof (onion_lut_process_SET _ _ _ _ w' S R Hlen) as E.
    rewrite Nat2Z.id in E.
    unfold lut_at at 1. rewrite E.
    rewrite list_lookup_insert_eq by lia. cbn [default].
    unfold key_pair. cbn [keycode threshold].
    unfold to_uint8, to_uint16.
    rewrite !Z.mod_small by lia. reflexivity.
Qed.

Lemma set_line_reads_back_witness :
  0 <= 5 <= INT_MAX /\ 0 <= 1000 <= INT_MAX /\ 0 <= 4 <= INT_MAX
  /\ set_line 5 1000 4 = "SET:5,1000,4"
  /\ sscanf_SET (set_line 5 1000 4) = [5; 1000; 4].
Proof.
  assert (H1 : 0 <= 5 <= INT_MAX) by (unfold INT_MAX; lia).
  assert (H2 : 0 <= 1000 <= INT_MAX) by (unfold INT_MAX; lia).
  assert (H3 : 0 <= 4 <= INT_MAX) by (unfold INT_MAX; lia).
  split; [exact H1|]. split; [exact H2|]. split; [exact H3|].
  split; [vm_compute; reflexivity|].
  exact (proj1 (set_line_reads_back 5 1000 4 H1 H2 H3)).
Defined.

(** ** What a scan cycle can send *)

Lemma key_report_eq (k : Z) (p : bool) :
  (if p then <[2%nat := k]> (replicate 8 0) else replicate 8 0)
  = key_report k p.
Proof. destruct p; reflexivity. Qed.

Lemma report_of_same (w w' : world) (n : notification) :
  conn_handle w' = conn_handle w ->
  report_handle w' = report_handle w ->
  onion_lut w' = onion_lut w ->
  report_of w' n -> report_of w n.
Proof.
  intros Hc Hr Hl (c & p & Hlt & ->). exists c, p. split; [exact Hlt|].
  unfold lut_at. rewrite Hc, Hr, Hl. reflexivity.
Qed.

Lemma scan_channel_report_shape (c : nat) (act : bool) (w : world) :
  (c < 16)%nat ->
  exists new : list notification,
    ble_tx (snd (scan_channel c (act, w))) = ble_tx w ++ new
    /\ Forall (report_of w) new.
Proof.
  intros Hc. rewrite scan_channel_snd. cbn zeta.
  pose proof (ble_tx_has_changed c w) as H1.
  destruct (same_outside_scan_has_changed c w)
    as (L1 & _ & _ & _ & C1 & R1 & _).
  set (w1 := snd (onion_touch_has_changed c w)) in *. clearbody w1.
  destruct (fst (onion_touch_has_changed c w)).
  - rewrite ble_tx_send_log, key_report_eq.
    destruct (onion_touch_read_frame c w1)
      as (_ & L2 & _ & Htx & _ & C2 & R2 & _).
    set (p := fst (onion_touch_read c w1)). clearbody p.
    set (w2 := snd (onion_touch_read c w1)) in *. clearbody w2.
    destruct (conn_handle w2 =? 0xFFFF).
    + exists []. rewrite app_nil_r, Htx, H1. split; [reflexivity | constructor].
    + eexists. rewrite Htx, H1. split; [reflexivity|].
      constructor; [|constructor].
      exists c, p. split; [exact Hc|].
      unfold lut_at. rewrite C2, C1, R2, R1, L2, L1. reflexivity.
  - exists []. rewrite app_nil_r. split; [exact H1 | constructor].
Qed.

(** X22: every notification queued by a scan cycle is addressed to the
    connection and report handle current when the cycle began, and is an
    8-byte report whose bytes are all zero except possibly byte 2, which
    then holds the keycode of one of the 16 channels: no modifier, and
    never a second key in bytes 3 to 7. *)
Theorem scan_cycle_report_shape (w : world) :
  exists new : list notification,
    ble_tx (snd (scan_cycle w)) = ble_tx w ++ new
    /\ Forall (report_of w) new.
Proof.
  rewrite scan_cycle_snd.
  assert (G : forall n, (n <= 16)%nat ->
            exists new, ble_tx (before_channel w n) = ble_tx w ++ new
                        /\ Forall (report_of w) new).
  { induction n as [|n IH]; intros Hn.
    - exists []. rewrite app_nil_r. split; [reflexivity | constructor].
    - destruct (IH ltac:(lia)) as (new & E & F).
      destruct (same_outside_scan_upto n w)
        as (L & _ & _ & _ & C & R & _).
      unfold before_channel in *. cbn [for_upto].
      destruct (for_upto n scan_channel (false, w)) as [act wn].
      cbn [snd] in *.
      destruct (scan_channel_report_shape n act wn ltac:(lia))
        as (new' & E' & F').
      exists (new ++ new'). rewrite E', E, app_assoc. split; [reflexivity|].
      apply Forall_app. split; [exact F|].
      eapply Forall_impl; [exact F'|].
      intros x. apply report_of_same; assumption. }
  apply G. lia.
Qed.

(** ** A steady input *)

Lemma oversample_steady (v : Z) :
  0 <= v < 65536 -> oversample v v v v = v.
Proof.
  intros Hv. rewrite oversample_mean by assumption.
  rewrite Z.quot_div_nonneg by lia.
  replace (v + v + v + v) with (v * 4) by lia.
  apply Z.div_mul. lia.
Qed.

Lemma classify_steady (c : nat) (v : Z) (x : world) :
  (c < 16)%nat ->
  (forall k, adc_signal x c k = v) ->
  0 <= v < 65536 ->
  fst (onion_touch_read c x) = (v <? threshold (lut_at x c)).
Proof.
  intros Hc Hs Hv. rewrite onion_touch_read_eq by exact Hc. cbn [fst].
  unfold adc_raw_of, reading. rewrite !Hs, oversample_steady by exact Hv.
  reflexivity.
Qed.

Lemma ble_tx_scan_channel_quiet (c : nat) (act : bool) (x : world) :
  fst (onion_touch_has_changed c x) = false ->
  ble_tx (snd (scan_channel c (act, x))) = ble_tx x.
Proof.
  intros He. rewrite scan_channel_snd. cbn zeta.
  pose proof (ble_tx_has_changed c x) as H1.
  set (w1 := snd (onion_touch_has_changed c x)) in *. clearbody w1.
  destruct (fst (onion_touch_has_changed c x)); [discriminate He | exact H1].
Qed.

Lemma edge_fired_eq (w : world) (c : nat) :
  edge_fired w c = fst (onion_touch_has_changed c (before_channel w c)).
Proof. unfold edge_fired. reflexivity. Qed.

Lemma before_channel_S (w : world) (n : nat) :
  before_channel w (S n)
  = snd (scan_channel n (fst (for_upto n scan_channel (false, w)),
                         before_channel w n)).
Proof.
  unfold before_channel. cbn [for_upto].
  destruct (for_upto n scan_channel (false, w)) as [act wn]. reflexivity.
Qed.

(** A cycle without an edge queues nothing. *)
Lemma quiet_cycle_sends_nothing (w : world) :
  (forall c, (c < 16)%nat -> edge_fired w c = false) ->
  ble_tx (snd (scan_cycle w)) = ble_tx w.
Proof.
  intros Hq. rewrite scan_cycle_snd.
  assert (G : forall n, (n <= 16)%nat ->
            ble_tx (before_channel w n) = ble_tx w).
  { induction n as [|n IH]; intros Hn; [reflexivity|].
    rewrite before_channel_S, ble_tx_scan_channel_quiet.
    - apply IH. lia.
    - rewrite <- edge_fired_eq. apply Hq. lia. }
  apply G. lia.
Qed.

(** Under a steady input, what a cycle leaves in the edge memory, and what
    the next one finds. *)
Lemma steady_cycle (v : nat -> Z) (w x : world) :
  (forall c k, (c < 16)%nat -> adc_signal w c k = v c) ->
  (forall c, (c < 16)%nat -> 0 <= v c < 65536) ->
  onion_lut x = onion_lut w ->
  adc_signal x = adc_signal w ->
  length (last_states x) = 16%nat ->
  let x' := snd (scan_cycle x) in
  onion_lut x' = onion_lut w
  /\ adc_signal x' = adc_signal w
  /\ length (last_states x') = 16%nat
  /\ (forall c, (c < 16)%nat ->
        last_state_at x' c = (v c <? threshold (lut_at w c)))
  /\ (forall c, (c < 16)%nat ->
        edge_fired x c
        = negb (eqb (v c <? threshold (lut_at w c)) (last_state_at x c))).
Proof.
  intros Hs Hv Hl Hsig Hlen x'.
  assert (Hcls : forall c, (c < 16)%nat ->
            fst (onion_touch_read c (before_channel x c))
            = (v c <? threshold (lut_at w c))).
  { intros c Hc.
    destruct (same_outside_scan_upto c x)
      as (L & _ & _ & _ & _ & _ & S & _).
    rewrite (classify_steady c (v c)); [| exact Hc | | apply Hv; exact Hc].
    - unfold lut_at. rewrite L, Hl. reflexivity.
    - intros k. rewrite S, Hsig. apply Hs. exact Hc. }
  pose proof (same_outside_scan_upto 16 x) as H16.
  rewrite <- scan_cycle_snd in H16.
  destruct H16 as (L & _ & _ & _ & _ & _ & S & Ls & _).
  fold x' in L, S, Ls.
  assert (Hmem : forall c, (c < 16)%nat ->
            last_state_at x' c = (v c <? threshold (lut_at w c))
            /\ edge_fired x c
               = negb (eqb (v c <? threshold (lut_at w c))
                           (last_state_at x c))).
  { intros c Hc.
    pose proof (last_state_after_cycle x c Hc Hlen) as A.
    pose proof (edge_fired_first_sample x c) as B.
    fold x' in A. rewrite A, B, (Hcls c Hc). split; reflexivity. }
  clearbody x'.
  split; [congruence|]. split; [congruence|]. split; [congruence|].
  split; intros c Hc; apply (Hmem c Hc).
Qed.

Lemma after_cycles_0 (w : world) : after_cycles 0 w = w.
Proof. reflexivity. Qed.

Lemma after_cycles_S (n : nat) (w : world) :
  after_cycles (S n) w = snd (scan_cycle (after_cycles n w)).
Proof. reflexivity. Qed.

(** A cycle that sees no edge asks for the long delay. *)
Lemma quiet_cycle_delay (w : world) :
  (forall c, (c < 16)%nat -> edge_fired w c = false) ->
  fst (scan_cycle w) = 50.
Proof.
  intros Hall.
  assert (X : existsb (edge_fired w) (seq 0 16) = false).
  { apply not_true_is_false. intros Ht. apply existsb_exists in Ht.
    destruct Ht as (c & Hin & He). apply in_seq in Hin.
    rewrite Hall in He by lia. discriminate. }
  unfold scan_cycle, MUX_CHANNELS_COUNT.
  rewrite <- activity_detected_after in X.
  destruct (for_upto 16 scan_channel (false, w)) as [act w'].
  cbn [fst] in X. subst act. reflexivity.
Qed.

(** X23: a steady input settles the scanner after one cycle.  When every
    channel delivers a constant conversion, the first cycle brings the edge
    memory in line with the input, and every later cycle sees no edge on any
    channel, queues no notification and asks for the long delay of 50. *)
Theorem steady_input_settles (v : nat -> Z) (w : world) (n : nat) :
  (forall c k, (c < 16)%nat -> adc_signal w c k = v c) ->
  (forall c, (c < 16)%nat -> 0 <= v c < 65536) ->
  length (last_states w) = 16%nat ->
  let x := after_cycles (S n) w in
  (forall c, (c < 16)%nat -> edge_fired x c = false)
  /\ fst (scan_cycle x) = 50
  /\ ble_tx (snd (scan_cycle x)) = ble_tx x.
Proof.
  intros Hs Hv Hlen x.
  assert (Inv : onion_lut x = onion_lut w
                /\ adc_signal x = adc_signal w
                /\ length (last_states x) = 16%nat
                /\ (forall c, (c < 16)%nat ->
                      last_state_at x c = (v c <? threshold (lut_at w c)))).
  { subst x. induction n as [|n IH].
    - rewrite after_cycles_S, after_cycles_0.
      destruct (steady_cycle v w w Hs Hv eq_refl eq_refl Hlen)
        as (A & B & C & D & _).
      split; [exact A|]. split; [exact B|]. split; [exact C | exact D].
    - destruct IH as (A & B & C & _).
      rewrite (after_cycles_S (S n)).
      revert A B C. generalize (after_cycles (S n) w). intros y A B C.
      destruct (steady_cycle v w y Hs Hv A B C) as (A' & B' & C' & D' & _).
      split; [exact A'|]. split; [exact B'|]. split; [exact C' | exact D']. }
  revert Inv. generalize x. clear x. intros x (A & B & C & D).
  destruct (steady_cycle v w x Hs Hv A B C) as (_ & _ & _ & _ & E).
  assert (Q : forall c, (c < 16)%nat -> edge_fired x c = false).
  { intros c Hc. rewrite (E c Hc), (D c Hc), eqb_reflx. reflexivity. }
  split; [exact Q|]. split.
  - exact (quiet_cycle_delay x Q).
  - exact (quiet_cycle_sends_nothing x Q).
Qed.

Lemma steady_input_settles_witness :
  (forall c k, (c < 16)%nat ->
     adc_signal (boot nvs_blank (steady_signal 500)) c k = 500)
  /\ (forall c : nat, (c < 16)%nat -> 0 <= 500 < 65536)
  /\ length (last_states (boot nvs_blank (steady_signal 500))) = 16%nat
  /\ fst (scan_cycle (boot nvs_blank (steady_signal 500))) = 10
  /\ fst (scan_cycle
            (after_cycles 3 (boot nvs_blank (steady_signal 500)))) = 50.
Proof.
  assert (H1 : forall c k, (c < 16)%nat ->
             adc_signal (boot nvs_blank (steady_signal 500)) c k = 500)
    by (intros; reflexivity).
  assert (H2 : forall c : nat, (c < 16)%nat -> 0 <= 500 < 65536)
    by (intros; lia).
  assert (H3 : length (last_states (boot nvs_blank (steady_signal 500)))
               = 16%nat) by reflexivity.
  split; [exact H1|]. split; [exact H2|]. split; [exact H3|].
  split; [vm_compute; reflexivity|].
  exact (proj1 (proj2 (steady_input_settles (fun _ => 500)
                         (boot nvs_blank (steady_signal 500)) 2 H1 H2 H3))).
Defined.

(** ** A stored blob shorter than the table *)

(** X24: a stored blob that is smaller than the table is no error for the
    store, and [onion_config_init] does not look at the size the store
    reports back.  The load then returns [ESP_OK] and logs the
    configuration as synced; the blob has overwritten the head of the table
    only, the records behind it are still the compiled-in defaults, and the
    flash is not rewritten. *)
Theorem short_blob_overwrites_head (n : nvs_t) (sig : nat -> nat -> Z)
    (b : list onion_key_t) :
  nvs_open n = ESP_OK ->
  nvs_read_res n = ESP_OK ->
  nvs_entries n !! NVS_KEY_LUT = Some b ->
  (length b <= 16)%nat ->
  let w' := snd (onion_config_init (boot n sig)) in
  fst (onion_config_init (boot n sig)) = ESP_OK
  /\ fst (nvs_get_blob NVS_KEY_LUT 16 n) = ESP_OK
  /\ length (onion_lut w') = 16%nat
  /\ (forall i, (i < length b)%nat -> onion_lut w' !! i = b !! i)
  /\ (forall i, (length b <= i)%nat -> onion_lut w' !! i = default_lut !! i)
  /\ nvs w' = n
  /\ esp_log w' = ["Configuration synced from NVS storage."].
Proof.
  intros Ho Hr Hb Hl w'. subst w'.
  rewrite (onion_config_init_fits (boot n sig) b Ho Hr Hb Hl).
  rewrite fst_pair, snd_pair.
  change (onion_lut (ESP_LOGI TAG_CONFIG
                       "Configuration synced from NVS storage."
                       (set_onion_lut (blob_into b (onion_lut (boot n sig)))
                          (boot n sig))))
    with (blob_into b default_lut).
  split; [reflexivity|]. split.
  { unfold nvs_get_blob. rewrite Hr, Hb.
    rewrite decide_True by exact Hl. reflexivity. }
  split; [apply blob_into_length; exact Hl|].
  split; [|split; [|split; reflexivity]].
  - intros i Hi. unfold blob_into. apply lookup_app_l. exact Hi.
  - intros i Hi. unfold blob_into. rewrite lookup_app_r by exact Hi.
    rewrite lookup_drop. f_equal. lia.
Qed.

Lemma short_blob_overwrites_head_witness :
  nvs_open nvs_short = ESP_OK
  /\ nvs_read_res nvs_short = ESP_OK
  /\ nvs_entries nvs_short !! NVS_KEY_LUT = Some [OnionKey 4 1000 false]
  /\ fst (onion_config_init (boot nvs_short crossing_signal)) = ESP_OK
  /\ onion_lut (snd (onion_config_init (boot nvs_short crossing_signal)))
       !! 0%nat
     = Some (OnionKey 4 1000 false)
  /\ onion_lut (snd (onion_config_init (boot nvs_short crossing_signal)))
       !! 1%nat
     = default_lut !! 1%nat.
Proof.
  assert (Ho : nvs_open nvs_short = ESP_OK) by reflexivity.
  assert (Hr : nvs_read_res nvs_short = ESP_OK) by reflexivity.
  assert (Hb : nvs_entries nvs_short !! NVS_KEY_LUT
               = Some [OnionKey 4 1000 false]) by (vm_compute; reflexivity).
  assert (Hl : (length [OnionKey 4 1000 false] <= 16)%nat) by (cbn; lia).
  destruct (short_blob_overwrites_head nvs_short crossing_signal _ Ho Hr Hb Hl)
    as (H1 & _ & _ & H4 & H5 & _).
  split; [exact Ho|]. split; [exact Hr|]. split; [exact Hb|].
  split; [exact H1|]. split.
  - apply (H4 0%nat). cbn. lia.
  - apply (H5 1%nat). cbn. lia.
Defined.
